(** * realtime-editor: the WebSocket connection manager and the editor's
      echo suppression

    A shallow embedding of [frontend/src/services/websocket.ts]
    (class [WebSocketService]) and of the two callbacks of
    [components/Editor.tsx] that talk to it ([handleWebSocketMessage],
    [handleContentChange]).

    The service is event driven: its methods and the four handlers it
    installs on every transport run to completion on one task queue.  Each
    of them is a function on [World], the record of the service's fields
    together with the part of the browser they touch (the transports
    constructed so far, the promises, the timers, the console). *)

From Stdlib Require Import ZArith Lia.
From stdpp Require Import base list strings pretty.

Local Open Scope Z_scope.

(** ** JavaScript values

    [payload: any] and the result of [JSON.parse] are untyped at run time. *)
Module JS.

#[warnings="-register-all"]
Inductive Value : Type :=
| Undefined
| Null
| Bool (b : bool)
| Num (n : Z)          (* the integers among the JSON numbers *)
| Str (s : string)
| Arr (xs : list Value)
| Obj (fields : list (string * Value)).

Fixpoint lookup_field (k : string) (fields : list (string * Value)) : Value :=
  match fields with
  | [] => Undefined
  | (k', v) :: rest => if String.eqb k k' then v else lookup_field k rest
  end.

(** [v.k] for the keys the program reads ([type], [payload], [content],
    [count]): a [TypeError] ([None]) on [undefined] and [null], the own
    property of an object, [undefined] on every other value. *)
Definition get (v : Value) (k : string) : option Value :=
  match v with
  | Undefined | Null => None
  | Obj fields => Some (lookup_field k fields)
  | _ => Some Undefined
  end.

(** [v === "s"] against a string literal. *)
Definition is_str (v : Value) (s : string) : bool :=
  match v with
  | Str s' => String.eqb s' s
  | _ => false
  end.

End JS.

(** ** The host: what the browser supplies and the repository does not

    [JSON_parse] is [None] where [JSON.parse] throws; [WebSocket_accepts]
    tells whether [new WebSocket(url)] returns (it throws a [SyntaxError]
    on a URL it cannot use, the case the [try]/[catch] of [connect] is
    there for). *)
Class Host := {
  JSON_parse : string -> option JS.Value;
  JSON_stringify : JS.Value -> string;
  WebSocket_accepts : string -> bool
}.

(** ** The state *)

(** [WebSocket.CONNECTING], [OPEN], [CLOSING], [CLOSED]. *)
Definition CONNECTING : Z := 0.
Definition OPEN : Z := 1.
Definition CLOSING : Z := 2.
Definition CLOSED : Z := 3.

Inductive PromiseState := Pending | Fulfilled | Rejected.

(** A promise made by [connect]: its state, and how many
    [.catch(error => console.error('Reconnection failed:', error))]
    reactions [attemptReconnect]'s timer callback has attached to it. *)
Record PromiseRec := {
  p_state : PromiseState;
  p_catchers : nat
}.

(** A transport made by [new WebSocket(url)].  The four handlers [connect]
    installs on it stay installed for its whole life; they close over [this]
    and over [resolve]/[reject] of the promise [sk_promise]. *)
Record Socket := {
  sk_url : string;
  sk_readyState : Z;
  sk_promise : nat;
  sk_sent : list string;       (* what [socket.send] was given, oldest first *)
  sk_close_fired : bool        (* the close event has been delivered *)
}.

(** A [setTimeout] of [attemptReconnect].  No handle is kept by the source,
    so nothing can clear one. *)
Record Timer := {
  tm_delay : Z;
  tm_pending : bool
}.

Inductive Level := LLog | LWarn | LError.

Record LogEntry := {
  level : Level;
  text : string
}.

Record World := {
  (* fields of [WebSocketService] *)
  socket : option nat;
  reconnectAttempts : Z;
  messageHandlers : list nat;
  connectionPromise : option nat;
  url : string;
  (* the browser *)
  sockets : list Socket;
  promises : list PromiseRec;
  timers : list Timer;
  console : list LogEntry
}.

Definition maxReconnectAttempts : Z := 5.
Definition reconnectDelay : Z := 1000.

(** [websocketService], as [WebSocketService.getInstance()] makes it when
    the module loads: [new WebSocketService('ws://localhost:8080/ws')]. *)
Definition initial : World :=
  {| socket := None; reconnectAttempts := 0; messageHandlers := [];
     connectionPromise := None; url := "ws://localhost:8080/ws";
     sockets := []; promises := []; timers := []; console := [] |}.

Definition set_socket (v : option nat) (w : World) : World :=
  {| socket := v; reconnectAttempts := reconnectAttempts w;
     messageHandlers := messageHandlers w;
     connectionPromise := connectionPromise w; url := url w;
     sockets := sockets w; promises := promises w; timers := timers w;
     console := console w |}.

Definition set_reconnectAttempts (v : Z) (w : World) : World :=
  {| socket := socket w; reconnectAttempts := v;
     messageHandlers := messageHandlers w;
     connectionPromise := connectionPromise w; url := url w;
     sockets := sockets w; promises := promises w; timers := timers w;
     console := console w |}.

Definition set_messageHandlers (v : list nat) (w : World) : World :=
  {| socket := socket w; reconnectAttempts := reconnectAttempts w;
     messageHandlers := v;
     connectionPromise := connectionPromise w; url := url w;
     sockets := sockets w; promises := promises w; timers := timers w;
     console := console w |}.

Definition set_connectionPromise (v : option nat) (w : World) : World :=
  {| socket := socket w; reconnectAttempts := reconnectAttempts w;
     messageHandlers := messageHandlers w;
     connectionPromise := v; url := url w;
     sockets := sockets w; promises := promises w; timers := timers w;
     console := console w |}.

Definition set_url (v : string) (w : World) : World :=
  {| socket := socket w; reconnectAttempts := reconnectAttempts w;
     messageHandlers := messageHandlers w;
     connectionPromise := connectionPromise w; url := v;
     sockets := sockets w; promises := promises w; timers := timers w;
     console := console w |}.

Definition set_sockets (v : list Socket) (w : World) : World :=
  {| socket := socket w; reconnectAttempts := reconnectAttempts w;
     messageHandlers := messageHandlers w;
     connectionPromise := connectionPromise w; url := url w;
     sockets := v; promises := promises w; timers := timers w;
     console := console w |}.

Definition set_promises (v : list PromiseRec) (w : World) : World :=
  {| socket := socket w; reconnectAttempts := reconnectAttempts w;
     messageHandlers := messageHandlers w;
     connectionPromise := connectionPromise w; url := url w;
     sockets := sockets w; promises := v; timers := timers w;
     console := console w |}.

Definition set_timers (v : list Timer) (w : World) : World :=
  {| socket := socket w; reconnectAttempts := reconnectAttempts w;
     messageHandlers := messageHandlers w;
     connectionPromise := connectionPromise w; url := url w;
     sockets := sockets w; promises := promises w; timers := v;
     console := console w |}.

Definition set_console (v : list LogEntry) (w : World) : World :=
  {| socket := socket w; reconnectAttempts := reconnectAttempts w;
     messageHandlers := messageHandlers w;
     connectionPromise := connectionPromise w; url := url w;
     sockets := sockets w; promises := promises w; timers := timers w;
     console := v |}.

(** [console.log], [console.warn], [console.error]; the arguments after the
    first are left out. *)
Definition say (l : Level) (s : string) (w : World) : World :=
  set_console (console w ++ [{| level := l; text := s |}]) w.

(** ** Promises *)

(** The same line [n] times: one for each reaction that runs. *)
Fixpoint say_n (n : nat) (l : Level) (s : string) (w : World) : World :=
  match n with
  | O => w
  | S n' => say_n n' l s (say l s w)
  end.

(** [resolve()]: settles a pending promise, does nothing to a settled one. *)
Definition resolve (p : nat) (w : World) : World :=
  match promises w !! p with
  | Some {| p_state := Pending; p_catchers := c |} =>
      set_promises (<[p := {| p_state := Fulfilled; p_catchers := c |}]> (promises w)) w
  | _ => w
  end.

(** [reject(error)]: a pending promise becomes rejected and the reactions
    attached by the reconnection timer run. *)
Definition reject (p : nat) (w : World) : World :=
  match promises w !! p with
  | Some {| p_state := Pending; p_catchers := c |} =>
      say_n c LError "Reconnection failed:"
        (set_promises (<[p := {| p_state := Rejected; p_catchers := c |}]> (promises w)) w)
  | _ => w
  end.

(** What [connect()] hands to its caller: [Promise.resolve()], or a promise
    that settles as promise [p] does. *)
Inductive Outcome :=
| Done
| Waits (p : nat).

(** ** The methods of [WebSocketService] *)
Section Service.

Context {host : Host}.

Definition readyState_of (s : nat) (w : World) : option Z :=
  sk_readyState <$> sockets w !! s.

(** [get isConnected]: [this.socket?.readyState === WebSocket.OPEN]. *)
Definition isConnected (w : World) : bool :=
  match socket w with
  | Some s =>
      match readyState_of s w with
      | Some r => r =? OPEN
      | None => false
      end
  | None => false
  end.

(** [get readyState]: [this.socket?.readyState || WebSocket.CLOSED]. *)
Definition readyState (w : World) : Z :=
  match socket w with
  | Some s =>
      match readyState_of s w with
      | Some r => if r =? 0 then CLOSED else r
      | None => CLOSED
      end
  | None => CLOSED
  end.

Definition setUrl (u : string) (w : World) : World := set_url u w.

Definition new_socket (u : string) (p : nat) : Socket :=
  {| sk_url := u; sk_readyState := CONNECTING; sk_promise := p;
     sk_sent := []; sk_close_fired := false |}.

(** The executor of [new Promise(...)] inside [connect], for the fresh
    promise [p]. *)
Definition connect_executor (p : nat) (w : World) : World :=
  let w := say LLog "Attempting to connect to:" w in
  if WebSocket_accepts (url w) then
    set_socket (Some (length (sockets w)))
      (set_sockets (sockets w ++ [new_socket (url w) p]) w)
  else
    reject p
      (set_connectionPromise None
         (say LError "Failed to create WebSocket:" w)).

Definition connect (w : World) : World * Outcome :=
  if isConnected w then
    (say LLog "WebSocket already connected" w, Done)
  else
    match connectionPromise w with
    | Some p => (say LLog "WebSocket connection in progress" w, Waits p)
    | None =>
        let p := length (promises w) in
        let w := set_promises
                   (promises w ++ [{| p_state := Pending; p_catchers := 0 |}]) w in
        let w := connect_executor p w in
        (set_connectionPromise (Some p) w, Waits p)
    end.

(** [socket.send(data)] on an open transport. *)
Definition socket_send (s : nat) (data : string) (w : World) : World :=
  match sockets w !! s with
  | Some sk =>
      set_sockets
        (<[s := {| sk_url := sk_url sk; sk_readyState := sk_readyState sk;
                   sk_promise := sk_promise sk;
                   sk_sent := sk_sent sk ++ [data];
                   sk_close_fired := sk_close_fired sk |}]> (sockets w)) w
  | None => w
  end.

Definition send (message : JS.Value) (w : World) : World :=
  if isConnected w then
    match socket w with
    | Some s => socket_send s (JSON_stringify message) w
    | None => w
    end
  else
    say LWarn "WebSocket is not connected. Message not sent:" w.

(** [onMessage(handler)]; handlers are function objects, compared by
    identity: a handler is the number that names it. *)
Definition onMessage (h : nat) (w : World) : World :=
  set_messageHandlers (messageHandlers w ++ [h]) w.

(** The function [onMessage(handler)] returns. *)
Definition unregister (h : nat) (w : World) : World :=
  set_messageHandlers (filter (fun h' => h' <> h) (messageHandlers w)) w.

Definition attemptReconnect (w : World) : World :=
  if reconnectAttempts w <? maxReconnectAttempts then
    let w := set_reconnectAttempts (reconnectAttempts w + 1) w in
    let delay := reconnectDelay * reconnectAttempts w in
    let w := say LLog "Attempting to reconnect in ...ms" w in
    set_timers (timers w ++ [{| tm_delay := delay; tm_pending := true |}]) w
  else
    say LError "Max reconnection attempts reached" w.

(** [socket.close()]: a transport that is connecting or open starts closing;
    the close event comes later, as a task of its own. *)
Definition socket_close (s : nat) (w : World) : World :=
  match sockets w !! s with
  | Some sk =>
      set_sockets
        (<[s := {| sk_url := sk_url sk;
                   sk_readyState :=
                     if (sk_readyState sk =? CLOSING) || (sk_readyState sk =? CLOSED)
                     then sk_readyState sk else CLOSING;
                   sk_promise := sk_promise sk;
                   sk_sent := sk_sent sk;
                   sk_close_fired := sk_close_fired sk |}]> (sockets w)) w
  | None => w
  end.

Definition disconnect (w : World) : World :=
  let w := match socket w with
           | Some s => set_socket None (socket_close s w)
           | None => w
           end in
  set_connectionPromise None (set_messageHandlers [] w).

End Service.

(** ** Client code, handlers and dispatch *)

(** What client code can do with the service: its public surface, and
    throwing. *)
Inductive action :=
| AConnect
| ADisconnect
| ASend (message : JS.Value)
| AOnMessage (h : nat)
| AUnregister (h : nat)      (* calling the function [onMessage(h)] returned *)
| ASetUrl (u : string)
| AThrow.

(** One call of a handler: the handler's name and the registry
    ([this.messageHandlers]) at the moment it is called. *)
Record Invocation := {
  inv_handler : nat;
  inv_registry : list nat
}.

(** What a dispatch pass did. *)
Record Pass := {
  pass_world : World;
  pass_invoked : list Invocation;
  pass_threw : bool
}.

Section Dispatch.

Context {host : Host}.

(** The body of handler [h]: what it does with the service when called with
    a message, which may depend on what it sees of the service. *)
Variable handler : nat -> JS.Value -> World -> list action.

Definition run_action (a : action) (w : World) : World * bool :=
  match a with
  | AConnect => (fst (connect w), false)
  | ADisconnect => (disconnect w, false)
  | ASend m => (send m w, false)
  | AOnMessage h => (onMessage h w, false)
  | AUnregister h => (unregister h w, false)
  | ASetUrl u => (setUrl u w, false)
  | AThrow => (w, true)
  end.

(** Statements in sequence; a throw abandons the rest. *)
Fixpoint run_actions (acts : list action) (w : World) : World * bool :=
  match acts with
  | [] => (w, false)
  | a :: rest =>
      let (w', threw) := run_action a w in
      if threw then (w', true) else run_actions rest w'
  end.

(** [array.forEach(handler => handler(message))] over the array [hs].
    [forEach] fixes its range when it starts and reads the array it was
    called on; [onMessage] appends to that array past the range and the
    unregister functions assign a new array to [this.messageHandlers], so
    the elements visited are those of [hs].  A handler that throws ends the
    loop. *)
Fixpoint forEach (hs : list nat) (message : JS.Value) (w : World) : Pass :=
  match hs with
  | [] => {| pass_world := w; pass_invoked := []; pass_threw := false |}
  | h :: rest =>
      let call := {| inv_handler := h; inv_registry := messageHandlers w |} in
      let (w', threw) := run_actions (handler h message w) w in
      if threw then
        {| pass_world := w'; pass_invoked := [call]; pass_threw := true |}
      else
        let r := forEach rest message w' in
        {| pass_world := pass_world r;
           pass_invoked := call :: pass_invoked r;
           pass_threw := pass_threw r |}
  end.

Definition notifyHandlers (message : JS.Value) (w : World) : Pass :=
  forEach (messageHandlers w) message w.

(** *** The handlers [connect] installs on a transport

    [p] is the promise whose [resolve] and [reject] the handlers close
    over. *)

Definition onopen (p : nat) (w : World) : World :=
  let w := say LLog "WebSocket connected successfully" w in
  let w := set_reconnectAttempts 0 w in
  let w := set_connectionPromise None w in
  resolve p w.

Definition onmessage (data : string) (w : World) : Pass :=
  match JSON_parse data with
  | Some message =>
      let r := notifyHandlers message (say LLog "Received message:" w) in
      if pass_threw r then
        {| pass_world := say LError "Error parsing WebSocket message:" (pass_world r);
           pass_invoked := pass_invoked r;
           pass_threw := false |}
      else r
  | None =>
      {| pass_world := say LError "Error parsing WebSocket message:" w;
         pass_invoked := [];
         pass_threw := false |}
  end.

Definition onclose (w : World) : World :=
  let w := say LLog "WebSocket disconnected:" w in
  let w := set_connectionPromise None w in
  let w := set_socket None w in
  attemptReconnect w.

Definition onerror (p : nat) (w : World) : World :=
  let w := say LError "WebSocket error:" w in
  let w := set_connectionPromise None w in
  let w := set_socket None w in
  reject p w.

(** [.catch(error => console.error('Reconnection failed:', error))] on what
    [connect()] returned: a reaction more on a pending promise, the line at
    once on a rejected one. *)
Definition attach_catch (o : Outcome) (w : World) : World :=
  match o with
  | Done => w
  | Waits p =>
      match promises w !! p with
      | Some {| p_state := Pending; p_catchers := c |} =>
          set_promises (<[p := {| p_state := Pending; p_catchers := S c |}]> (promises w)) w
      | Some {| p_state := Rejected; p_catchers := _ |} =>
          say LError "Reconnection failed:" w
      | _ => w
      end
  end.

(** The callback [attemptReconnect] gives to [setTimeout]. *)
Definition reconnect_callback (w : World) : World :=
  let (w', o) := connect w in attach_catch o w'.

(** ** The event loop

    One task at a time: client code calling the service, an event of a
    transport, or a timer running out.  The browser changes [readyState]
    before it fires the event. *)
Inductive event :=
| Call (a : action)
| SocketOpen (s : nat)                    (* the handshake succeeded *)
| SocketMessage (s : nat) (data : string)
| SocketError (s : nat)                   (* the connection failed *)
| SocketClose (s : nat)                   (* the close event, once per transport *)
| TimerFires (t : nat).

Definition set_readyState (s : nat) (r : Z) (fired : bool) (w : World) : World :=
  match sockets w !! s with
  | Some sk =>
      set_sockets
        (<[s := {| sk_url := sk_url sk; sk_readyState := r;
                   sk_promise := sk_promise sk; sk_sent := sk_sent sk;
                   sk_close_fired := fired || sk_close_fired sk |}]> (sockets w)) w
  | None => w
  end.

(** [None]: the event cannot happen in this state. *)
Definition step (e : event) (w : World) : option World :=
  match e with
  | Call a => Some (fst (run_action a w))
  | SocketOpen s =>
      match sockets w !! s with
      | Some sk =>
          if sk_readyState sk =? CONNECTING
          then Some (onopen (sk_promise sk) (set_readyState s OPEN false w))
          else None
      | None => None
      end
  | SocketMessage s data =>
      match sockets w !! s with
      | Some sk =>
          if sk_readyState sk =? OPEN
          then Some (pass_world (onmessage data w))
          else None
      | None => None
      end
  | SocketError s =>
      match sockets w !! s with
      | Some sk =>
          if sk_close_fired sk
          then None
          else Some (onerror (sk_promise sk) (set_readyState s CLOSED false w))
      | None => None
      end
  | SocketClose s =>
      match sockets w !! s with
      | Some sk =>
          if sk_close_fired sk
          then None
          else Some (onclose (set_readyState s CLOSED true w))
      | None => None
      end
  | TimerFires t =>
      match timers w !! t with
      | Some tm =>
          if tm_pending tm
          then Some (reconnect_callback
                       (set_timers (<[t := {| tm_delay := tm_delay tm;
                                               tm_pending := false |}]> (timers w)) w))
          else None
      | None => None
      end
  end.

Fixpoint run (es : list event) (w : World) : option World :=
  match es with
  | [] => Some w
  | e :: rest =>
      match step e w with
      | Some w' => run rest w'
      | None => None
      end
  end.

(** [n] calls of [connect()] one after the other, no event in between, and
    what each caller is handed. *)
Fixpoint connect_n (n : nat) (w : World) : World * list Outcome :=
  match n with
  | O => (w, [])
  | S k =>
      let (w1, o) := connect w in
      let (w2, os) := connect_n k w1 in
      (w2, o :: os)
  end.

End Dispatch.

(** ** The editor component

    [components/Editor.tsx]: the state of one mounted [Editor] and the two
    callbacks that stand between the text area and the service.  Neither
    callback reads or writes the [isConnected] state that feeds the banner;
    the mount effect, which sets it, is [Mount] below. *)
Module Editor.

Record State := {
  content : JS.Value;          (* [useState<string>('')]; whatever [setContent] was given *)
  usersCount : JS.Value;
  isRemoteUpdate : bool;       (* [isRemoteUpdate.current] *)
  pending : list Timer         (* the [setTimeout]s of [handleWebSocketMessage] *)
}.

Definition mounted : State :=
  {| content := JS.Str ""; usersCount := JS.Num 1;
     isRemoteUpdate := false; pending := [] |}.

Definition setContent (v : JS.Value) (e : State) : State :=
  {| content := v; usersCount := usersCount e;
     isRemoteUpdate := isRemoteUpdate e; pending := pending e |}.

Definition setUsersCount (v : JS.Value) (e : State) : State :=
  {| content := content e; usersCount := v;
     isRemoteUpdate := isRemoteUpdate e; pending := pending e |}.

Definition set_isRemoteUpdate (b : bool) (e : State) : State :=
  {| content := content e; usersCount := usersCount e;
     isRemoteUpdate := b; pending := pending e |}.

Definition set_pending (ts : list Timer) (e : State) : State :=
  {| content := content e; usersCount := usersCount e;
     isRemoteUpdate := isRemoteUpdate e; pending := ts |}.

(** [setTimeout(() => { isRemoteUpdate.current = false; }, 100)]. *)
Definition echo_window : Z := 100.

(** What a callback leaves behind; [threw]: it ended in a [TypeError]. *)
Record Result := {
  editor : State;
  world : World;
  threw : bool
}.

Definition handleWebSocketMessage (message : JS.Value) (e : State) (w : World)
  : Result :=
  match JS.get message "type" with
  | None => {| editor := e; world := w; threw := true |}
  | Some t =>
      if JS.is_str t "content_update" then
        let e := set_isRemoteUpdate true e in
        match JS.get message "payload" with
        | Some payload =>
            match JS.get payload "content" with
            | Some c =>
                let e := setContent c e in
                let e := set_pending
                           (pending e ++ [{| tm_delay := echo_window;
                                             tm_pending := true |}]) e in
                {| editor := e; world := w; threw := false |}
            | None => {| editor := e; world := w; threw := true |}
            end
        | None => {| editor := e; world := w; threw := true |}
        end
      else if JS.is_str t "user_count_update" then
        match JS.get message "payload" with
        | Some payload =>
            match JS.get payload "count" with
            | Some n => {| editor := setUsersCount n e; world := w; threw := false |}
            | None => {| editor := e; world := w; threw := true |}
            end
        | None => {| editor := e; world := w; threw := true |}
        end
      else if JS.is_str t "user_joined" then
        {| editor := e; world := say LLog "User joined:" w; threw := false |}
      else
        {| editor := e; world := say LLog "Received message:" w; threw := false |}
  end.

(** The timer [t] of [handleWebSocketMessage] runs out. *)
Definition window_closes (t : nat) (e : State) : option State :=
  match pending e !! t with
  | Some tm =>
      if tm_pending tm
      then Some (set_isRemoteUpdate false
                   (set_pending (<[t := {| tm_delay := tm_delay tm;
                                           tm_pending := false |}]> (pending e)) e))
      else None
  | None => None
  end.

Definition content_update (text : string) : JS.Value :=
  JS.Obj [("type", JS.Str "content_update");
          ("payload", JS.Obj [("content", JS.Str text)])].

(** The text area's [onChange], with [e.target.value = newContent]. *)
Definition handleContentChange `{Host} (newContent : string) (e : State) (w : World)
  : Result :=
  let e := setContent (JS.Str newContent) e in
  if negb (isRemoteUpdate e) && isConnected w then
    {| editor := e; world := send (content_update newContent) w; threw := false |}
  else
    {| editor := e; world := w; threw := false |}.

End Editor.

(** ** The editor's mount effect

    The [useEffect] of [Editor]: what runs when the component mounts, the
    cleanup it returns, and how [connectWebSocket] goes on once the promise
    it awaits settles.  [h] names this component's
    [handleWebSocketMessage]. *)
Module Mount.

(** Where the effect leaves the banner: [setIsConnected(true)] at once, or
    waiting for what [connect()] returned. *)
Inductive Started :=
| Reused
| Awaiting (o : Outcome).

Definition effect `{Host} (h : nat) (w : World) : World * Started :=
  let w := say LLog "Editor component mounted" w in
  let w := onMessage h w in
  if isConnected w then
    (say LLog "Reusing existing WebSocket connection" w, Reused)
  else
    let w := say LLog "Establishing new WebSocket connection" w in
    let (w', o) := connect w in
    (w', Awaiting o).

(** The function the effect returns; React calls it on unmount. *)
Definition cleanup (h : nat) (w : World) : World :=
  unregister h
    (say LLog "Editor component unmounted - removing message handler" w).

(** After [await websocketService.connect()]: the value [setIsConnected]
    is given, none while the promise is pending. *)
Definition resumes (st : PromiseState) (w : World) : World * option bool :=
  match st with
  | Fulfilled =>
      (say LLog "WebSocket connected successfully from component" w, Some true)
  | Rejected =>
      (say LError "Failed to connect to WebSocket:" w, Some false)
  | Pending => (w, None)
  end.

(** What the banner of an editor that awaits promise [p] has been told. *)
Definition banner (p : nat) (w : World) : option bool :=
  match p_state <$> promises w !! p with
  | Some st => snd (resumes st w)
  | None => None
  end.

(** Several editors mounting one after the other, no event in between. *)
Fixpoint effects `{Host} (hs : list nat) (w : World) : World * list Started :=
  match hs with
  | [] => (w, [])
  | h :: rest =>
      let (w1, st) := effect h w in
      let (w2, sts) := effects rest w1 in
      (w2, st :: sts)
  end.

End Mount.

(** ** A host to run the examples on

    Its [JSON.parse] knows the texts of the table and takes every other text
    for ill-formed (the other texts used below are); its [JSON.stringify]
    prints strings without escapes; its [WebSocket] takes the absolute URLs
    of the [ws:], [wss:], [http:] and [https:] schemes that carry no
    fragment, and throws on a URL of another scheme. *)
Module Sample.

Definition parse (data : string) : option JS.Value :=
  if String.eqb data "{}" then Some (JS.Obj [])
  else if String.eqb data "[]" then Some (JS.Arr [])
  else if String.eqb data "null" then Some JS.Null
  else if String.eqb data "42" then Some (JS.Num 42)
  else None.

Definition quote : string := String (Ascii.ascii_of_nat 34) EmptyString.

Definition join (sep : string) (parts : list string) : string :=
  match parts with
  | [] => EmptyString
  | p :: rest => fold_left (fun acc q => acc +:+ sep +:+ q) rest p
  end.

Fixpoint print (v : JS.Value) : string :=
  match v with
  | JS.Undefined => "undefined"
  | JS.Null => "null"
  | JS.Bool b => if b then "true" else "false"
  | JS.Num n => pretty n
  | JS.Str s => quote +:+ s +:+ quote
  | JS.Arr xs => "[" +:+ join "," (map print xs) +:+ "]"
  | JS.Obj fields =>
      "{" +:+ join "," (map (fun kv => quote +:+ fst kv +:+ quote +:+ ":" +:+ print (snd kv))
                            fields) +:+ "}"
  end.

(** Whether the text holds the character [#] (code 35). *)
Fixpoint has_fragment (u : string) : bool :=
  match u with
  | EmptyString => false
  | String c rest => Ascii.eqb c (Ascii.ascii_of_nat 35) || has_fragment rest
  end.

(** What [new WebSocket(url)] takes: a [ws:], [wss:], [http:] or [https:]
    URL without a fragment. It throws on the others. *)
Definition accepts (u : string) : bool :=
  (String.prefix "ws://" u || String.prefix "wss://" u ||
   String.prefix "http://" u || String.prefix "https://" u) &&
  negb (has_fragment u).

#[export] Instance host : Host :=
  {| JSON_parse := parse; JSON_stringify := print; WebSocket_accepts := accepts |}.

(** Handlers that do nothing with the service. *)
Definition quiet (h : nat) (m : JS.Value) (w : World) : list action := [].

(** Handler 0 calls the unregister function of handler 1; the others do
    nothing. *)
Definition remover (h : nat) (m : JS.Value) (w : World) : list action :=
  match h with
  | O => [AUnregister 1]
  | _ => []
  end.

(** Every handler unregisters itself when called. *)
Definition once (h : nat) (m : JS.Value) (w : World) : list action :=
  [AUnregister h].

(** A session: connect, the connection opens, [disconnect()]. *)
Definition session : list event :=
  [Call AConnect; SocketOpen 0; Call ADisconnect].

(** A connection that cannot be made: the first attempt and the five
    retries fail one after the other (error event, then close event), and the
    service gives up. *)
Definition giving_up : list event :=
  [Call AConnect;
   SocketError 0; SocketClose 0; TimerFires 0;
   SocketError 1; SocketClose 1; TimerFires 1;
   SocketError 2; SocketClose 2; TimerFires 2;
   SocketError 3; SocketClose 3; TimerFires 3;
   SocketError 4; SocketClose 4; TimerFires 4;
   SocketError 5; SocketClose 5].

(** Handler 1 throws; the others do nothing. *)
Definition thrower (h : nat) (m : JS.Value) (w : World) : list action :=
  match h with
  | 1%nat => [AThrow]
  | _ => []
  end.

(** The world after connect and the open event. *)
Definition connected : World :=
  Eval vm_compute in
    default initial (run quiet [Call AConnect; SocketOpen 0] initial).

(** Two transports, the first closing after a [disconnect()], the second
    open and current. *)
Definition second_open : World :=
  Eval vm_compute in
    default initial
      (run quiet [Call AConnect; Call ADisconnect; Call AConnect; SocketOpen 1]
         initial).

(** A first attempt given up by [disconnect()], a second attempt started,
    and then the close event of the first transport: the second transport
    is still connecting, and the service has forgotten it. *)
Definition orphaned : World :=
  Eval vm_compute in
    default initial
      (run quiet [Call AConnect; Call ADisconnect; Call AConnect; SocketClose 0]
         initial).

(** The world after [giving_up] and one more [connect()] by client code. *)
Definition last_try : World :=
  Eval vm_compute in
    default initial (run quiet (giving_up ++ [Call AConnect]) initial).

End Sample.

(** ** Vocabulary of the statements *)

Definition promise_state (p : nat) (w : World) : option PromiseState :=
  p_state <$> promises w !! p.


(** A transport from which no reconnection can come any more, with the
    attempt counter at [a]: its close event has been delivered, or the
    counter is at the ceiling and the transport cannot open (an open event
    would put the counter back to 0). *)
Definition spent (a : Z) (sk : Socket) : Prop :=
  (sk_close_fired sk = true /\ sk_readyState sk = CLOSED) \/
  (maxReconnectAttempts <= a /\ sk_readyState sk <> CONNECTING).

(** Nothing is left that could reconnect: no timer is pending and every
    transport is spent. *)
Definition settled (w : World) : Prop :=
  Forall (fun tm => tm_pending tm = false) (timers w) /\
  Forall (spent (reconnectAttempts w)) (sockets w).

(** Being settled, and the number of transports, from one world to a later
    one. *)
Definition stays_settled (w w' : World) : Prop :=
  settled w -> settled w' /\ length (sockets w') = length (sockets w).

(** The handlers a pass called, in the order of the calls. *)
Definition called (r : Pass) : list nat := map inv_handler (pass_invoked r).

(** The five kinds of the wire format. *)
Definition kinds : list string :=
  ["content_update"; "cursor_position"; "user_joined"; "user_left";
   "user_count_update"].

(** The envelope as the specification words it: an object with a [type]
    that is one of the five kind strings and a [payload] that is an object.
    The source has no such test: it takes what [JSON.parse] returns. *)
Definition is_envelope (v : JS.Value) : bool :=
  match v with
  | JS.Obj fields =>
      match JS.lookup_field "type" fields, JS.lookup_field "payload" fields with
      | JS.Str k, JS.Obj _ => bool_decide (k ∈ kinds)
      | _, _ => false
      end
  | _ => false
  end.

Definition parses_as_envelope `{Host} (data : string) : bool :=
  match JSON_parse data with
  | Some v => is_envelope v
  | None => false
  end.

(** The transports that are still connecting: the establishment attempts
    in flight. *)
Definition in_flight (w : World) : list Socket :=
  filter (fun sk => sk_readyState sk = CONNECTING) (sockets w).

(** How many transports [new WebSocket] has made so far. *)
Definition transports_made (w : World) : nat := length (sockets w).

(** Client code that never calls [connect()]. *)
Definition no_connect (a : action) : Prop := a <> AConnect.

(** [send] for each message of [ms], in order. *)
Definition send_all `{Host} (ms : list JS.Value) (w : World) : World :=
  foldl (fun v m => send m v) w ms.

(** A transport with [data] added to what it was given to send. *)
Definition queued (data : list string) (sk : Socket) : Socket :=
  {| sk_url := sk_url sk; sk_readyState := sk_readyState sk;
     sk_promise := sk_promise sk; sk_sent := sk_sent sk ++ data;
     sk_close_fired := sk_close_fired sk |}.

(** A transport after an event of the browser: its [readyState] and
    whether its close event has been delivered. *)
Definition moved (r : Z) (fired : bool) (sk : Socket) : Socket :=
  {| sk_url := sk_url sk; sk_readyState := r; sk_promise := sk_promise sk;
     sk_sent := sk_sent sk; sk_close_fired := fired || sk_close_fired sk |}.

(** The world after the handlers of [pre] have been called with [m], one
    after the other, each running as far as it gets. *)
Definition after `{Host} (handler : nat -> JS.Value -> World -> list action)
    (m : JS.Value) (pre : list nat) (w : World) : World :=
  foldl (fun v g => fst (run_actions (handler g m v) v)) w pre.

(** Whether the call of handler [h] with [m] in world [v] ends in a throw. *)
Definition throws `{Host} (handler : nat -> JS.Value -> World -> list action)
    (m : JS.Value) (h : nat) (v : World) : bool :=
  snd (run_actions (handler h m v) v).

(** Every handler of [pre], called in its turn, returns normally. *)
Definition all_return `{Host} (handler : nat -> JS.Value -> World -> list action)
    (m : JS.Value) (pre : list nat) (w : World) : Prop :=
  forall i g, pre !! i = Some g ->
    throws handler m g (after handler m (take i pre) w) = false.

(** Every transport whose close event was delivered is [CLOSED]. *)
Definition tidy (w : World) : Prop :=
  Forall (fun sk => sk_close_fired sk = true -> sk_readyState sk = CLOSED)
         (sockets w).

(** The open and close events of a transport and the callback of a timer:
    tasks in which neither a call from outside nor a message handler
    runs. *)
Definition open_close_or_timer (e : event) : Prop :=
  match e with
  | SocketOpen _ | SocketClose _ | TimerFires _ => True
  | Call _ | SocketMessage _ _ | SocketError _ => False
  end.

(** The calls that change the listener registry. *)
Definition registry_call (a : action) : Prop :=
  match a with
  | ADisconnect | AOnMessage _ | AUnregister _ => True
  | _ => False
  end.

(** The attempt counter is between 0 and the ceiling, and every timer ever
    set has a delay between one and five base delays. *)
Definition bounded (w : World) : Prop :=
  0 <= reconnectAttempts w <= maxReconnectAttempts /\
  Forall (fun tm => reconnectDelay <= tm_delay tm <= reconnectDelay * maxReconnectAttempts)
         (timers w).

(** * Properties *)

Section Facts.

Context {host : Host}.

(** ** The getters *)

Lemma isConnected_spec (w : World) :
  isConnected w = true <->
  exists s sk, socket w = Some s /\ sockets w !! s = Some sk /\ sk_readyState sk = OPEN.
Proof.
  unfold isConnected, readyState_of. split.
  - destruct (socket w) as [s|]; [|discriminate].
    destruct (sockets w !! s) as [sk|] eqn:E; cbn; [|discriminate].
    intros H. exists s, sk. repeat split; auto. now apply Z.eqb_eq.
  - intros (s & sk & -> & -> & E). cbn. now apply Z.eqb_eq.
Qed.

(** C10. With a transport that is still connecting ([readyState] 0) the
    getter [readyState] answers [WebSocket.CLOSED] (3), because 0 is falsy;
    it answers the transport's own [readyState] when that is not 0, and
    [CLOSED] when there is no transport. *)
Theorem readyState_getter_masks_connecting (w : World) :
  (socket w = None -> readyState w = CLOSED) /\
  (forall s sk, socket w = Some s -> sockets w !! s = Some sk ->
     (sk_readyState sk = 0 -> readyState w = 3) /\
     (sk_readyState sk <> 0 -> readyState w = sk_readyState sk)).
Proof.
  unfold readyState, readyState_of. split.
  - now intros ->.
  - intros s sk -> ->. cbn. split.
    + intros ->. reflexivity.
    + intros Hne. destruct (Z.eqb_spec (sk_readyState sk) 0); [contradiction|reflexivity].
Qed.

(** ** [send] *)

(** C7. A [send] while the connection is not open transmits nothing, does
    not throw, and changes nothing of the service: the only trace is one
    warning on the console. *)
Theorem send_while_not_open_only_warns (message : JS.Value) (w : World) :
  isConnected w = false ->
  let w' := send message w in
  run_action (ASend message) w = (w', false) /\
  sockets w' = sockets w /\
  socket w' = socket w /\
  reconnectAttempts w' = reconnectAttempts w /\
  messageHandlers w' = messageHandlers w /\
  connectionPromise w' = connectionPromise w /\
  url w' = url w /\
  promises w' = promises w /\
  timers w' = timers w /\
  console w' =
    console w ++ [{| level := LWarn;
                     text := "WebSocket is not connected. Message not sent:" |}].
Proof.
  intros Hnot. cbn. unfold send. rewrite Hnot. cbn. repeat split.
Qed.

(** ** [disconnect] *)

Lemma disconnect_fields (w : World) :
  socket (disconnect w) = None /\
  messageHandlers (disconnect w) = [] /\
  connectionPromise (disconnect w) = None.
Proof.
  unfold disconnect. destruct (socket w) as [s|] eqn:E; cbn; auto.
Qed.

(** C9. [disconnect] is idempotent: a second call in a row does not throw
    and leaves the state the first call left, with no transport, no
    listener and no pending outcome. *)
Theorem disconnect_idempotent (w : World) :
  disconnect (disconnect w) = disconnect w /\
  run_actions [ADisconnect; ADisconnect] w = (disconnect w, false) /\
  socket (disconnect w) = None /\
  messageHandlers (disconnect w) = [] /\
  connectionPromise (disconnect w) = None.
Proof.
  assert (E : disconnect (disconnect w) = disconnect w).
  { destruct (disconnect_fields w) as (Hs & Hh & Hp).
    unfold disconnect at 1. rewrite Hs. cbn.
    destruct (disconnect w) as [so ra mh cp u sks ps ts co]. cbn in *.
    now subst. }
  split; [exact E|]. split.
  - cbn. now rewrite E.
  - apply disconnect_fields.
Qed.

(** ** Reconnection *)

Variable handler : nat -> JS.Value -> World -> list action.

Lemma attemptReconnect_below (w : World) :
  reconnectAttempts w < maxReconnectAttempts ->
  reconnectAttempts (attemptReconnect w) = reconnectAttempts w + 1 /\
  timers (attemptReconnect w) =
    timers w ++ [{| tm_delay := reconnectDelay * (reconnectAttempts w + 1);
                    tm_pending := true |}].
Proof.
  intros H. unfold attemptReconnect.
  destruct (Z.ltb_spec (reconnectAttempts w) maxReconnectAttempts); [|lia].
  cbn. auto.
Qed.

Lemma attemptReconnect_ceiling (w : World) :
  maxReconnectAttempts <= reconnectAttempts w ->
  reconnectAttempts (attemptReconnect w) = reconnectAttempts w /\
  timers (attemptReconnect w) = timers w.
Proof.
  intros H. unfold attemptReconnect.
  destruct (Z.ltb_spec (reconnectAttempts w) maxReconnectAttempts); [lia|].
  cbn. auto.
Qed.

Lemma onclose_below (w : World) :
  reconnectAttempts w < maxReconnectAttempts ->
  reconnectAttempts (onclose w) = reconnectAttempts w + 1 /\
  timers (onclose w) =
    timers w ++ [{| tm_delay := reconnectDelay * (reconnectAttempts w + 1);
                    tm_pending := true |}].
Proof.
  intros H. unfold onclose.
  set (v := set_socket None _).
  destruct (attemptReconnect_below v H) as [Ha Ht]. now rewrite Ha, Ht.
Qed.

Lemma onclose_ceiling (w : World) :
  maxReconnectAttempts <= reconnectAttempts w ->
  reconnectAttempts (onclose w) = reconnectAttempts w /\
  timers (onclose w) = timers w.
Proof.
  intros H. unfold onclose.
  set (v := set_socket None _).
  destruct (attemptReconnect_ceiling v H) as [Ha Ht]. now rewrite Ha, Ht.
Qed.

Lemma set_readyState_service (s : nat) (r : Z) (b : bool) (w : World) :
  socket (set_readyState s r b w) = socket w /\
  reconnectAttempts (set_readyState s r b w) = reconnectAttempts w /\
  messageHandlers (set_readyState s r b w) = messageHandlers w /\
  connectionPromise (set_readyState s r b w) = connectionPromise w /\
  url (set_readyState s r b w) = url w /\
  promises (set_readyState s r b w) = promises w /\
  timers (set_readyState s r b w) = timers w /\
  console (set_readyState s r b w) = console w /\
  length (sockets (set_readyState s r b w)) = length (sockets w).
Proof.
  unfold set_readyState. destruct (sockets w !! s); cbn; repeat split; auto.
  now rewrite length_insert.
Qed.

Lemma step_SocketClose (s : nat) (w w' : World) :
  step handler (SocketClose s) w = Some w' ->
  w' = onclose (set_readyState s CLOSED true w).
Proof.
  cbn. destruct (sockets w !! s) as [sk|]; [|discriminate].
  destruct (sk_close_fired sk); [discriminate|]. now intros [= <-].
Qed.

Lemma step_SocketOpen (s : nat) (w w' : World) :
  step handler (SocketOpen s) w = Some w' ->
  exists sk, sockets w !! s = Some sk /\ sk_readyState sk = CONNECTING /\
             w' = onopen (sk_promise sk) (set_readyState s OPEN false w).
Proof.
  cbn. destruct (sockets w !! s) as [sk|]; [|discriminate].
  destruct (Z.eqb_spec (sk_readyState sk) CONNECTING); [|discriminate].
  intros [= <-]. eauto.
Qed.

Lemma resolve_service (p : nat) (w : World) :
  socket (resolve p w) = socket w /\
  reconnectAttempts (resolve p w) = reconnectAttempts w /\
  messageHandlers (resolve p w) = messageHandlers w /\
  connectionPromise (resolve p w) = connectionPromise w /\
  url (resolve p w) = url w /\
  sockets (resolve p w) = sockets w /\
  timers (resolve p w) = timers w /\
  console (resolve p w) = console w.
Proof.
  unfold resolve. destruct (promises w !! p) as [[[] c]|]; cbn; repeat split.
Qed.



(** ** [connect] *)

Lemma say_fields (l : Level) (t : string) (w : World) :
  socket (say l t w) = socket w /\
  reconnectAttempts (say l t w) = reconnectAttempts w /\
  messageHandlers (say l t w) = messageHandlers w /\
  connectionPromise (say l t w) = connectionPromise w /\
  url (say l t w) = url w /\
  sockets (say l t w) = sockets w /\
  promises (say l t w) = promises w /\
  timers (say l t w) = timers w.
Proof. cbn. repeat split. Qed.

Lemma say_n_fields (n : nat) (l : Level) (t : string) (w : World) :
  socket (say_n n l t w) = socket w /\
  reconnectAttempts (say_n n l t w) = reconnectAttempts w /\
  messageHandlers (say_n n l t w) = messageHandlers w /\
  connectionPromise (say_n n l t w) = connectionPromise w /\
  url (say_n n l t w) = url w /\
  sockets (say_n n l t w) = sockets w /\
  promises (say_n n l t w) = promises w /\
  timers (say_n n l t w) = timers w.
Proof.
  revert w. induction n as [|n IH]; intros w; cbn [say_n]; [repeat split|].
  destruct (IH (say l t w)) as (-> & -> & -> & -> & -> & -> & -> & ->).
  repeat split.
Qed.

(** The first [connect()] of an idle service whose URL the browser takes. *)
Lemma connect_idle (w : World) :
  isConnected w = false ->
  connectionPromise w = None ->
  WebSocket_accepts (url w) = true ->
  exists w1,
    connect w = (w1, Waits (length (promises w))) /\
    sockets w1 = sockets w ++ [new_socket (url w) (length (promises w))] /\
    promises w1 = promises w ++ [{| p_state := Pending; p_catchers := 0 |}] /\
    connectionPromise w1 = Some (length (promises w)) /\
    socket w1 = Some (length (sockets w)) /\
    timers w1 = timers w /\
    isConnected w1 = false.
Proof.
  intros Hnot Hidle Hok. unfold connect. rewrite Hnot, Hidle.
  eexists. split; [reflexivity|].
  unfold connect_executor. cbn. rewrite Hok. cbn.
  repeat split.
  unfold isConnected, readyState_of. cbn.
  rewrite list_lookup_middle by reflexivity. reflexivity.
Qed.

(** A [connect()] while an attempt is outstanding. *)
Lemma connect_in_progress (p : nat) (w : World) :
  isConnected w = false ->
  connectionPromise w = Some p ->
  connect w = (say LLog "WebSocket connection in progress" w, Waits p).
Proof. intros Hnot Hp. unfold connect. now rewrite Hnot, Hp. Qed.

Lemma connect_n_in_progress (n : nat) (p : nat) (w : World) :
  isConnected w = false ->
  connectionPromise w = Some p ->
  exists w',
    connect_n n w = (w', replicate n (Waits p)) /\
    sockets w' = sockets w /\ promises w' = promises w /\
    connectionPromise w' = Some p /\ socket w' = socket w /\
    timers w' = timers w.
Proof.
  revert w. induction n as [|n IH]; intros w Hnot Hp.
  - exists w. cbn. repeat split; auto.
  - cbn [connect_n]. rewrite (connect_in_progress p w Hnot Hp).
    destruct (IH (say LLog "WebSocket connection in progress" w))
      as (w' & E & Hs & Hps & Hcp & Hso & Ht); [exact Hnot|exact Hp|].
    exists w'. rewrite E. cbn. repeat split; auto.
Qed.

(** [n >= 1] calls in a row on an idle service. *)
Lemma connect_n_idle (n : nat) (w : World) :
  isConnected w = false ->
  connectionPromise w = None ->
  WebSocket_accepts (url w) = true ->
  (1 <= n)%nat ->
  exists w',
    connect_n n w = (w', replicate n (Waits (length (promises w)))) /\
    sockets w' = sockets w ++ [new_socket (url w) (length (promises w))] /\
    promises w' = promises w ++ [{| p_state := Pending; p_catchers := 0 |}] /\
    connectionPromise w' = Some (length (promises w)) /\
    socket w' = Some (length (sockets w)) /\
    timers w' = timers w.
Proof.
  intros Hnot Hidle Hok Hn. destruct n as [|n]; [lia|].
  destruct (connect_idle w Hnot Hidle Hok)
    as (w1 & E1 & Hs1 & Hp1 & Hcp1 & Hso1 & Ht1 & Hnot1).
  destruct (connect_n_in_progress n _ w1 Hnot1 Hcp1)
    as (w' & E & Hs & Hps & Hcp & Hso & Ht).
  exists w'. cbn [connect_n replicate]. rewrite E1, E. repeat split; congruence.
Qed.

(** The other branch of [connect]'s [try]: the browser refuses the URL.  No
    transport is made; the promise is rejected in the executor and then
    stored, so every later caller is handed the same rejected promise. *)
Lemma connect_n_refused_url (n : nat) (w : World) :
  isConnected w = false ->
  connectionPromise w = None ->
  WebSocket_accepts (url w) = false ->
  (1 <= n)%nat ->
  exists w',
    connect_n n w = (w', replicate n (Waits (length (promises w)))) /\
    sockets w' = sockets w /\
    promise_state (length (promises w)) w' = Some Rejected.
Proof.
  intros Hnot Hidle Hbad Hn. destruct n as [|n]; [lia|].
  cbn [connect_n replicate]. unfold connect at 1. rewrite Hnot, Hidle.
  cbv zeta. unfold connect_executor. cbn [url say set_console set_promises].
  rewrite Hbad.
  set (p := length (promises w)).
  set (w1 := set_connectionPromise (Some p) _).
  assert (Hs1 : sockets w1 = sockets w).
  { subst w1. cbn. unfold reject. cbn.
    rewrite list_lookup_middle by reflexivity. reflexivity. }
  assert (Hp1 : promises w1 =
                promises w ++ [{| p_state := Rejected; p_catchers := 0 |}]).
  { subst w1. cbn. unfold reject. cbn.
    rewrite list_lookup_middle by reflexivity. cbn.
    change (S (length (promises w))) with (S p).
    replace p with (length (promises w) + 0)%nat at 1 by (subst p; lia).
    now rewrite insert_app_r. }
  assert (Hnot1 : isConnected w1 = false).
  { unfold isConnected, readyState_of in *.
    replace (socket w1) with (socket w); [now rewrite Hs1|].
    subst w1. cbn. unfold reject. cbn.
    rewrite list_lookup_middle by reflexivity. reflexivity. }
  destruct (connect_n_in_progress n p w1 Hnot1 eq_refl)
    as (w' & E & Hs & Hps & _).
  exists w'. rewrite E. split; [reflexivity|]. split; [congruence|].
  unfold promise_state. rewrite Hps, Hp1.
  now rewrite list_lookup_middle by reflexivity.
Qed.

Lemma onopen_settles (s p : nat) (w : World) :
  promises w !! p = Some {| p_state := Pending; p_catchers := 0 |} ->
  promise_state p (onopen p (set_readyState s OPEN false w)) = Some Fulfilled.
Proof.
  intros Hp. unfold onopen, resolve, promise_state.
  destruct (set_readyState_service s OPEN false w)
    as (_ & _ & _ & _ & _ & Hps & _).
  cbn. rewrite Hps, Hp. cbn.
  rewrite list_lookup_insert_eq; [reflexivity|]. now apply lookup_lt_Some in Hp.
Qed.

Lemma onerror_settles (s p c : nat) (w : World) :
  promises w !! p = Some {| p_state := Pending; p_catchers := c |} ->
  promise_state p (onerror p (set_readyState s CLOSED false w)) = Some Rejected.
Proof.
  intros Hp. unfold onerror, reject, promise_state.
  destruct (set_readyState_service s CLOSED false w)
    as (_ & _ & _ & _ & _ & Hps & _).
  cbn. rewrite Hps, Hp.
  match goal with |- context [say_n c ?l ?t ?v] =>
    destruct (say_n_fields c l t v) as (_ & _ & _ & _ & _ & _ & -> & _) end.
  cbn. rewrite list_lookup_insert_eq; [reflexivity|]. now apply lookup_lt_Some in Hp.
Qed.

(** Any number [n >= 1] of [connect()] calls made in a row on an idle
    service (nothing open, no pending outcome stored, a URL the browser
    takes) construct exactly one transport, after the first call as after
    the last, next to the transports that were there; every caller is handed
    the one pending promise; the open event of that transport fulfils it and
    the error event rejects it. *)
Lemma connects_in_a_row_make_one_transport (n : nat) (w : World) :
  isConnected w = false ->
  connectionPromise w = None ->
  WebSocket_accepts (url w) = true ->
  (1 <= n)%nat ->
  let p := length (promises w) in
  let s := length (sockets w) in
  exists w',
    connect_n n w = (w', replicate n (Waits p)) /\
    (forall k, (1 <= k <= n)%nat ->
       sockets (fst (connect_n k w)) = sockets w ++ [new_socket (url w) p] /\
       in_flight (fst (connect_n k w)) = in_flight w ++ [new_socket (url w) p]) /\
    promise_state p w' = Some Pending /\
    (exists w1, step handler (SocketOpen s) w' = Some w1 /\
                promise_state p w1 = Some Fulfilled) /\
    (exists w2, step handler (SocketError s) w' = Some w2 /\
                promise_state p w2 = Some Rejected).
Proof.
  intros Hnot Hidle Hok Hn p s.
  destruct (connect_n_idle n w Hnot Hidle Hok Hn)
    as (w' & E & Hs & Hps & Hcp & Hso & Ht).
  assert (Hp : promises w' !! p = Some {| p_state := Pending; p_catchers := 0 |}).
  { rewrite Hps. now apply list_lookup_middle. }
  assert (Hsk : sockets w' !! s = Some (new_socket (url w) p)).
  { rewrite Hs. now apply list_lookup_middle. }
  exists w'. split; [exact E|]. split; [|split; [|split]].
  - intros k [Hk _].
    destruct (connect_n_idle k w Hnot Hidle Hok Hk) as (wk & Ek & Hsk' & _).
    rewrite Ek. cbn [fst]. split; [exact Hsk'|].
    unfold in_flight. rewrite Hsk', filter_app. f_equal.
  - unfold promise_state. now rewrite Hp.
  - eexists. split.
    + cbn [step]. rewrite Hsk. cbn. reflexivity.
    + now apply onopen_settles.
  - eexists. split.
    + cbn [step]. rewrite Hsk. cbn. reflexivity.
    + now apply (onerror_settles _ _ 0%nat).
Qed.

(** ** Echo suppression in the editor *)

(** C3. An inbound [content_update] message (one that carries a content)
    sets the origin flag, puts the message's content into the buffer and sets
    a timer of 100 ms that clears the flag; handling it sends nothing; and a
    change event of the text area that finds the flag set updates the buffer
    and sends nothing. *)
Theorem remote_update_is_not_echoed
    (message t payload c : JS.Value) (e : Editor.State) (w : World) :
  JS.get message "type" = Some t ->
  JS.is_str t "content_update" = true ->
  JS.get message "payload" = Some payload ->
  JS.get payload "content" = Some c ->
  let r := Editor.handleWebSocketMessage message e w in
  Editor.threw r = false /\
  Editor.isRemoteUpdate (Editor.editor r) = true /\
  Editor.content (Editor.editor r) = c /\
  Editor.pending (Editor.editor r) =
    Editor.pending e ++ [{| tm_delay := 100; tm_pending := true |}] /\
  Editor.world r = w /\
  (exists e', Editor.window_closes (length (Editor.pending e)) (Editor.editor r) = Some e' /\
              Editor.isRemoteUpdate e' = false /\ Editor.content e' = c) /\
  (forall text e0 w0, Editor.isRemoteUpdate e0 = true ->
     Editor.world (Editor.handleContentChange text e0 w0) = w0 /\
     Editor.content (Editor.editor (Editor.handleContentChange text e0 w0)) = JS.Str text).
Proof.
  intros Ht Hk Hp Hc. unfold Editor.handleWebSocketMessage.
  rewrite Ht, Hk, Hp, Hc. cbn.
  do 5 (split; [reflexivity|]). split.
  - unfold Editor.window_closes. cbn.
    rewrite list_lookup_middle by reflexivity. cbn.
    eexists. repeat split.
  - intros text e0 w0 Hflag. unfold Editor.handleContentChange. cbn.
    rewrite Hflag. split; reflexivity.
Qed.

(** The same message with no payload object: [message.payload.content]
    throws after the flag is set and before the timer is. *)
Lemma remote_update_without_payload (message t payload : JS.Value)
    (e : Editor.State) (w : World) :
  JS.get message "type" = Some t ->
  JS.is_str t "content_update" = true ->
  JS.get message "payload" = Some payload ->
  JS.get payload "content" = None ->
  Editor.handleWebSocketMessage message e w =
    {| Editor.editor := Editor.set_isRemoteUpdate true e;
       Editor.world := w; Editor.threw := true |}.
Proof.
  intros Ht Hk Hp Hc. unfold Editor.handleWebSocketMessage.
  now rewrite Ht, Hk, Hp, Hc.
Qed.

(** ** What runs through a dispatch pass

    A relation between the world before and after that every action of a
    handler keeps is kept by the whole pass. *)
Section Through.

Variable R : World -> World -> Prop.
Variable ok : action -> Prop.
Hypothesis R_refl : forall w, R w w.
Hypothesis R_trans : forall w1 w2 w3, R w1 w2 -> R w2 w3 -> R w1 w3.
Hypothesis R_action : forall a w, ok a -> R w (fst (run_action a w)).
Hypothesis handler_ok : forall h m w, Forall ok (handler h m w).

Lemma run_actions_keeps (acts : list action) (w : World) :
  Forall ok acts -> R w (fst (run_actions acts w)).
Proof.
  intros Hok. revert w. induction Hok as [|a acts Ha _ IH]; intros w; cbn.
  - apply R_refl.
  - pose proof (R_action a w Ha) as Hstep.
    destruct (run_action a w) as [w1 [|]]; cbn in *; [exact Hstep|].
    eapply R_trans; [exact Hstep|apply IH].
Qed.

Lemma forEach_keeps (hs : list nat) (m : JS.Value) (w : World) :
  R w (pass_world (forEach handler hs m w)).
Proof.
  revert w. induction hs as [|h hs IH]; intros w; cbn.
  - apply R_refl.
  - pose proof (run_actions_keeps (handler h m w) w (handler_ok h m w)) as Hstep.
    destruct (run_actions (handler h m w) w) as [w1 [|]]; cbn in *; [exact Hstep|].
    eapply R_trans; [exact Hstep|apply IH].
Qed.

Hypothesis R_say : forall l t w, R w (say l t w).

Lemma onmessage_keeps (data : string) (w : World) :
  R w (pass_world (onmessage handler data w)).
Proof.
  unfold onmessage, notifyHandlers.
  destruct (JSON_parse data) as [m|]; cbn; [|apply R_say].
  set (w1 := say LLog "Received message:" w).
  pose proof (forEach_keeps (messageHandlers w1) m w1) as Hpass.
  assert (Hw1 : R w w1) by apply R_say.
  destruct (pass_threw _); cbn.
  - eapply R_trans; [exact Hw1|]. eapply R_trans; [exact Hpass|apply R_say].
  - eapply R_trans; [exact Hw1|exact Hpass].
Qed.

End Through.

(** ** Who sets timers *)

Lemma reject_service (p : nat) (w : World) :
  socket (reject p w) = socket w /\
  reconnectAttempts (reject p w) = reconnectAttempts w /\
  messageHandlers (reject p w) = messageHandlers w /\
  connectionPromise (reject p w) = connectionPromise w /\
  url (reject p w) = url w /\
  sockets (reject p w) = sockets w /\
  timers (reject p w) = timers w.
Proof.
  unfold reject. destruct (promises w !! p) as [[[] c]|]; cbn; try (repeat split; fail).
  match goal with |- context [say_n c ?l ?t ?v] =>
    destruct (say_n_fields c l t v) as (-> & -> & -> & -> & -> & -> & _ & ->) end.
  repeat split.
Qed.

Lemma connect_keeps (w : World) :
  timers (fst (connect w)) = timers w /\
  reconnectAttempts (fst (connect w)) = reconnectAttempts w.
Proof.
  unfold connect. destruct (isConnected w); [split; reflexivity|].
  destruct (connectionPromise w); [split; reflexivity|].
  cbn. unfold connect_executor. cbn.
  destruct (WebSocket_accepts (url w)); [split; reflexivity|].
  match goal with |- context [reject ?p ?v] =>
    destruct (reject_service p v) as (_ & -> & _ & _ & _ & _ & ->) end.
  split; reflexivity.
Qed.

Lemma socket_close_keeps (s : nat) (w : World) :
  timers (socket_close s w) = timers w /\
  reconnectAttempts (socket_close s w) = reconnectAttempts w /\
  length (sockets (socket_close s w)) = length (sockets w).
Proof.
  unfold socket_close. destruct (sockets w !! s); cbn; repeat split.
  now rewrite length_insert.
Qed.

Lemma disconnect_keeps (w : World) :
  timers (disconnect w) = timers w /\
  reconnectAttempts (disconnect w) = reconnectAttempts w /\
  length (sockets (disconnect w)) = length (sockets w).
Proof.
  unfold disconnect. destruct (socket w) as [s|]; cbn; [|repeat split].
  apply socket_close_keeps.
Qed.

Lemma send_keeps (m : JS.Value) (w : World) :
  timers (send m w) = timers w /\
  reconnectAttempts (send m w) = reconnectAttempts w /\
  length (sockets (send m w)) = length (sockets w).
Proof.
  unfold send, socket_send. destruct (isConnected w); [|repeat split].
  destruct (socket w) as [s|]; [|repeat split].
  destruct (sockets w !! s); cbn; repeat split. now rewrite length_insert.
Qed.

Lemma run_action_keeps_timers (a : action) (w : World) :
  timers (fst (run_action a w)) = timers w /\
  reconnectAttempts (fst (run_action a w)) = reconnectAttempts w.
Proof.
  destruct a; cbn [run_action fst]; try (split; reflexivity).
  - apply connect_keeps.
  - destruct (disconnect_keeps w) as (-> & -> & _). now split.
  - destruct (send_keeps message w) as (-> & -> & _). now split.
Qed.

Lemma attach_catch_keeps (o : Outcome) (w : World) :
  timers (attach_catch o w) = timers w /\
  sockets (attach_catch o w) = sockets w.
Proof.
  unfold attach_catch. destruct o as [|p]; [split; reflexivity|].
  destruct (promises w !! p) as [[[] c]|]; cbn; split; reflexivity.
Qed.

(** Only a close event sets a timer: no call of the service, no other event
    of a transport and no timer running out changes how many timers were
    ever set. *)
Lemma only_close_sets_a_timer (e : event) (w w' : World) :
  step handler e w = Some w' ->
  (forall s, e <> SocketClose s) ->
  length (timers w') = length (timers w).
Proof.
  intros Hstep Hne. destruct e as [a|s|s data|s|s|t]; cbn in Hstep.
  - injection Hstep as <-. now destruct (run_action_keeps_timers a w) as [-> _].
  - destruct (sockets w !! s) as [sk|]; [|discriminate].
    destruct (sk_readyState sk =? CONNECTING); [|discriminate].
    injection Hstep as <-. unfold onopen.
    match goal with |- context [resolve ?p ?v] =>
      destruct (resolve_service p v) as (_ & _ & _ & _ & _ & _ & -> & _) end.
    cbn. now destruct (set_readyState_service s OPEN false w)
      as (_ & _ & _ & _ & _ & _ & -> & _).
  - destruct (sockets w !! s) as [sk|]; [|discriminate].
    destruct (sk_readyState sk =? OPEN); [|discriminate].
    injection Hstep as <-.
    apply (onmessage_keeps (fun v v' => length (timers v') = length (timers v))
             (fun _ => True)); auto.
    + intros; congruence.
    + intros a v _. now destruct (run_action_keeps_timers a v) as [-> _].
    + intros h m v. apply Forall_forall. auto.
  - destruct (sockets w !! s) as [sk|]; [|discriminate].
    destruct (sk_close_fired sk); [discriminate|].
    injection Hstep as <-. unfold onerror.
    match goal with |- context [reject ?p ?v] =>
      destruct (reject_service p v) as (_ & _ & _ & _ & _ & _ & ->) end.
    cbn. now destruct (set_readyState_service s CLOSED false w)
      as (_ & _ & _ & _ & _ & _ & -> & _).
  - now contradiction (Hne s).
  - destruct (timers w !! t) as [tm|]; [|discriminate].
    destruct (tm_pending tm); [|discriminate].
    injection Hstep as <-. unfold reconnect_callback.
    match goal with |- context [connect ?v] =>
      pose proof (connect_keeps v) as [Ht _]; destruct (connect v) as [v1 o] end.
    cbn in Ht. destruct (attach_catch_keeps o v1) as [-> _]. rewrite Ht.
    now rewrite length_insert.
Qed.

(** C4, as the code has it. The error event of a transport rejects the
    promise of the [connect()] that made it, clears the transport reference
    and the pending outcome, and sets no timer; no call of the service and no
    event other than a close event ever sets a timer; but every close event
    that finds the counter below 5 sets one, whether or not the transport
    was ever open. *)
Theorem error_rejects_and_only_close_retries :
  (forall s sk c w w',
     sockets w !! s = Some sk ->
     promises w !! sk_promise sk = Some {| p_state := Pending; p_catchers := c |} ->
     step handler (SocketError s) w = Some w' ->
     promise_state (sk_promise sk) w' = Some Rejected /\
     timers w' = timers w /\
     reconnectAttempts w' = reconnectAttempts w /\
     socket w' = None /\ connectionPromise w' = None) /\
  (forall e w w',
     step handler e w = Some w' ->
     (forall s, e <> SocketClose s) ->
     length (timers w') = length (timers w)) /\
  (forall s w w',
     step handler (SocketClose s) w = Some w' ->
     reconnectAttempts w < 5 ->
     timers w' = timers w ++ [{| tm_delay := 1000 * (reconnectAttempts w + 1);
                                 tm_pending := true |}]).
Proof.
  split; [|split].
  - intros s sk c w w' Hsk Hp Hstep. cbn in Hstep. rewrite Hsk in Hstep.
    destruct (sk_close_fired sk); [discriminate|]. injection Hstep as <-.
    split; [now apply (onerror_settles s _ c)|].
    unfold onerror.
    match goal with |- context [reject ?p ?v] =>
      destruct (reject_service p v) as (-> & -> & _ & -> & _ & _ & ->) end.
    cbn. destruct (set_readyState_service s CLOSED false w)
      as (_ & -> & _ & _ & _ & _ & -> & _).
    repeat split.
  - apply only_close_sets_a_timer.
  - intros s w w' Hstep Hlt. apply step_SocketClose in Hstep. subst w'.
    destruct (set_readyState_service s CLOSED true w)
      as (_ & Ha & _ & _ & _ & _ & Ht & _).
    destruct (onclose_below (set_readyState s CLOSED true w)) as [_ Et].
    + rewrite Ha. exact Hlt.
    + now rewrite Et, Ha, Ht.
Qed.

(** ** After [disconnect] *)

Lemma spent_insert (a : Z) (s : nat) (sk sk' : Socket) (sks : list Socket) :
  Forall (spent a) sks ->
  sks !! s = Some sk ->
  (spent a sk -> spent a sk') ->
  Forall (spent a) (<[s := sk']> sks).
Proof.
  intros Hall Hsk Himp. apply Forall_insert; [exact Hall|].
  apply Himp. exact (Forall_lookup_1 _ _ _ _ Hall Hsk).
Qed.

Lemma socket_close_spent (a : Z) (s : nat) (w : World) :
  Forall (spent a) (sockets w) -> Forall (spent a) (sockets (socket_close s w)).
Proof.
  intros Hall. unfold socket_close.
  destruct (sockets w !! s) as [sk|] eqn:Hsk; [|exact Hall]. cbn.
  eapply spent_insert; [exact Hall|exact Hsk|].
  unfold spent. cbn. intros [[Hf Hr]|[Ha Hr]].
  - left. rewrite Hr. cbn. auto.
  - right. split; [exact Ha|].
    destruct ((sk_readyState sk =? CLOSING) || (sk_readyState sk =? CLOSED));
      [exact Hr|discriminate].
Qed.

Lemma disconnect_spent (a : Z) (w : World) :
  Forall (spent a) (sockets w) -> Forall (spent a) (sockets (disconnect w)).
Proof.
  intros Hall. unfold disconnect. destruct (socket w) as [s|]; cbn; [|exact Hall].
  now apply socket_close_spent.
Qed.

Lemma send_spent (a : Z) (m : JS.Value) (w : World) :
  Forall (spent a) (sockets w) -> Forall (spent a) (sockets (send m w)).
Proof.
  intros Hall. unfold send, socket_send. destruct (isConnected w); [|exact Hall].
  destruct (socket w) as [s|]; [|exact Hall].
  destruct (sockets w !! s) as [sk|] eqn:Hsk; [|exact Hall]. cbn.
  eapply spent_insert; [exact Hall|exact Hsk|]. unfold spent. cbn. auto.
Qed.

Lemma stays_settled_refl (w : World) : stays_settled w w.
Proof. intros H. auto. Qed.

Lemma stays_settled_trans (w1 w2 w3 : World) :
  stays_settled w1 w2 -> stays_settled w2 w3 -> stays_settled w1 w3.
Proof.
  intros H12 H23 H1. destruct (H12 H1) as [H2 E12].
  destruct (H23 H2) as [H3 E23]. split; [exact H3|congruence].
Qed.

Lemma stays_settled_say (l : Level) (t : string) (w : World) :
  stays_settled w (say l t w).
Proof. intros H. split; [exact H|reflexivity]. Qed.

Lemma run_action_stays_settled (a : action) (w : World) :
  no_connect a -> stays_settled w (fst (run_action a w)).
Proof.
  intros Hnc [Ht Hs]. unfold settled.
  destruct (run_action_keeps_timers a w) as [-> ->].
  destruct a; cbn [run_action fst];
    try (exfalso; apply Hnc; reflexivity); try (repeat split; assumption).
  - destruct (disconnect_keeps w) as (_ & _ & ->).
    repeat split; auto using disconnect_spent.
  - destruct (send_keeps message w) as (_ & _ & ->).
    repeat split; auto using send_spent.
Qed.

Lemma set_readyState_spent (a : Z) (s : nat) (fired : bool) (w : World) :
  Forall (spent a) (sockets w) ->
  (forall sk, sockets w !! s = Some sk -> fired = false -> spent a sk) ->
  (forall sk, sockets w !! s = Some sk -> fired = true ->
     sk_close_fired sk = false -> maxReconnectAttempts <= a) ->
  Forall (spent a) (sockets (set_readyState s CLOSED fired w)).
Proof.
  intros Hall _ _. unfold set_readyState.
  destruct (sockets w !! s) as [sk|] eqn:Hsk; [|exact Hall]. cbn.
  eapply spent_insert; [exact Hall|exact Hsk|].
  unfold spent. cbn. intros [[Hf Hr]|[Ha Hr]].
  - left. rewrite Hf, orb_true_r. auto.
  - right. split; [exact Ha|discriminate].
Qed.

Lemma attemptReconnect_sockets (w : World) :
  sockets (attemptReconnect w) = sockets w.
Proof.
  unfold attemptReconnect.
  destruct (reconnectAttempts w <? maxReconnectAttempts); reflexivity.
Qed.

Section NoExplicitConnect.

Hypothesis handlers_never_connect : forall h m w, Forall no_connect (handler h m w).

(** A settled world stays settled, with the transports it has, through
    every task that is not client code calling [connect()]. *)
Lemma step_stays_settled (e : event) (w w' : World) :
  e <> Call AConnect ->
  step handler e w = Some w' ->
  stays_settled w w'.
Proof.
  intros Hne Hstep. destruct e as [a|s|s data|s|s|t]; cbn in Hstep.
  - injection Hstep as <-. apply run_action_stays_settled.
    intros ->. now apply Hne.
  - destruct (sockets w !! s) as [sk|] eqn:Hsk; [|discriminate].
    destruct (Z.eqb_spec (sk_readyState sk) CONNECTING) as [Hr|]; [|discriminate].
    intros [_ Hs]. exfalso.
    destruct (Forall_lookup_1 _ _ _ _ Hs Hsk) as [[_ Hc]|[_ Hc]];
      [rewrite Hr in Hc; discriminate|contradiction].
  - destruct (sockets w !! s) as [sk|]; [|discriminate].
    destruct (sk_readyState sk =? OPEN); [|discriminate].
    injection Hstep as <-.
    exact (onmessage_keeps stays_settled no_connect
             stays_settled_refl stays_settled_trans run_action_stays_settled
             handlers_never_connect stays_settled_say data w).
  - destruct (sockets w !! s) as [sk|] eqn:Hsk; [|discriminate].
    destruct (sk_close_fired sk) eqn:Hfired; [discriminate|].
    injection Hstep as <-. intros [Ht Hs]. unfold settled, onerror.
    match goal with |- context [reject ?p ?v] =>
      destruct (reject_service p v) as (_ & -> & _ & _ & _ & -> & ->) end.
    cbn.
    destruct (set_readyState_service s CLOSED false w)
      as (_ & -> & _ & _ & _ & _ & -> & _ & ->).
    repeat split; [exact Ht|].
    apply set_readyState_spent; [exact Hs| |discriminate].
    intros sk' Hsk' _. exact (Forall_lookup_1 _ _ _ _ Hs Hsk').
  - destruct (sockets w !! s) as [sk|] eqn:Hsk; [|discriminate].
    destruct (sk_close_fired sk) eqn:Hfired; [discriminate|].
    injection Hstep as <-. intros [Ht Hs].
    assert (Hceil : maxReconnectAttempts <= reconnectAttempts w).
    { destruct (Forall_lookup_1 _ _ _ _ Hs Hsk) as [[Hf _]|[Ha _]];
        [congruence|exact Ha]. }
    destruct (set_readyState_service s CLOSED true w)
      as (_ & Ea & _ & _ & _ & _ & Et & _ & El).
    destruct (onclose_ceiling (set_readyState s CLOSED true w)) as [Ha' Ht'];
      [now rewrite Ea|].
    unfold settled. rewrite Ha', Ht', Ea, Et.
    unfold onclose. rewrite attemptReconnect_sockets. cbn. rewrite El.
    repeat split; [exact Ht|].
    unfold set_readyState. rewrite Hsk. cbn.
    eapply spent_insert; [exact Hs|exact Hsk|].
    intros _. left. cbn. auto.
  - destruct (timers w !! t) as [tm|] eqn:Htm; [|discriminate].
    destruct (tm_pending tm) eqn:Hp; [|discriminate].
    intros [Ht _]. exfalso.
    pose proof (Forall_lookup_1 _ _ _ _ Ht Htm) as Hf. cbn in Hf. congruence.
Qed.

Lemma run_stays_settled (es : list event) (w w' : World) :
  Forall (fun e => e <> Call AConnect) es ->
  run handler es w = Some w' ->
  stays_settled w w'.
Proof.
  intros Hes. revert w. induction Hes as [|e es He _ IH]; intros w Hrun; cbn in Hrun.
  - injection Hrun as <-. apply stays_settled_refl.
  - destruct (step handler e w) as [w1|] eqn:Hstep; [|discriminate].
    eapply stays_settled_trans; [exact (step_stays_settled e w w1 He Hstep)|].
    now apply IH.
Qed.

End NoExplicitConnect.

(** ** Dispatch *)

Lemma forEach_called (hs : list nat) (m : JS.Value) (w : World) :
  (called (forEach handler hs m w) `prefix_of` hs) /\
  (pass_threw (forEach handler hs m w) = false ->
   called (forEach handler hs m w) = hs).
Proof.
  unfold called. revert w. induction hs as [|h hs IH]; intros w; cbn.
  - split; [apply prefix_nil|reflexivity].
  - destruct (run_actions (handler h m w) w) as [w1 [|]]; cbn.
    + split; [apply prefix_cons, prefix_nil|discriminate].
    + destruct (IH w1) as [Hpre Hall]. split.
      * now apply prefix_cons.
      * intros Hno. now rewrite Hall.
Qed.

Lemma unregister_removes (h : nat) (w : World) :
  (h ∉ messageHandlers (unregister h w)) /\
  (forall g, g <> h ->
     (g ∈ messageHandlers (unregister h w) <-> g ∈ messageHandlers w)).
Proof.
  unfold unregister. cbn. split.
  - intros Hin. apply list_elem_of_filter in Hin. now destruct Hin as [Hne _].
  - intros g Hg. rewrite list_elem_of_filter. tauto.
Qed.

(** ** Receiving *)

(** C8, as the code has it. A datum that [JSON.parse] rejects is dropped
    with one error on the console: no handler is called, nothing else of the
    state changes, so the next message finds the registry as it was and is
    dispatched over it. No exception leaves [onmessage], whatever the datum
    and whatever the handlers do. A datum that [JSON.parse] accepts is handed
    to the handlers as it is, enveloped or not. *)
Theorem unparsable_data_is_dropped_and_logged :
  (forall data w,
     JSON_parse data = None ->
     onmessage handler data w =
       {| pass_world := say LError "Error parsing WebSocket message:" w;
          pass_invoked := []; pass_threw := false |}) /\
  (forall data next m w,
     JSON_parse data = None ->
     JSON_parse next = Some m ->
     let w' := pass_world (onmessage handler data w) in
     messageHandlers w' = messageHandlers w /\
     (called (onmessage handler next w') `prefix_of` messageHandlers w) /\
     (pass_threw (notifyHandlers handler m (say LLog "Received message:" w')) = false ->
      called (onmessage handler next w') = messageHandlers w)) /\
  (forall data w, pass_threw (onmessage handler data w) = false) /\
  (forall data m w,
     JSON_parse data = Some m ->
     pass_invoked (onmessage handler data w) =
       pass_invoked (notifyHandlers handler m (say LLog "Received message:" w))).
Proof.
  split; [|split; [|split]].
  - intros data w Hbad. unfold onmessage. now rewrite Hbad.
  - intros data next m w Hbad Hgood.
    assert (E : pass_world (onmessage handler data w) =
                say LError "Error parsing WebSocket message:" w)
      by (unfold onmessage; now rewrite Hbad).
    cbv zeta. rewrite E. clear E.
    set (w' := say LError "Error parsing WebSocket message:" w).
    split; [reflexivity|].
    unfold onmessage. rewrite Hgood.
    set (v := say LLog "Received message:" w').
    destruct (forEach_called (messageHandlers v) m v) as [Hpre Hall].
    unfold notifyHandlers.
    destruct (pass_threw (forEach handler (messageHandlers v) m v)) eqn:Ht;
      unfold called in *; cbn [pass_invoked]; split; auto; discriminate.
  - intros data w. unfold onmessage.
    destruct (JSON_parse data) as [m|]; [|reflexivity].
    destruct (pass_threw (notifyHandlers handler m _)) eqn:Ht; [reflexivity|exact Ht].
  - intros data m w Hgood. unfold onmessage. rewrite Hgood.
    now destruct (pass_threw (notifyHandlers handler m _)).
Qed.

End Facts.

(** * More of the service and of the editor *)

Section More.

Context {host : Host}.

Variable handler : nat -> JS.Value -> World -> list action.

(** ** The getters together *)

(** X9. [isConnected] is true exactly when the getter [readyState] answers
    [WebSocket.OPEN]. *)
Theorem isConnected_iff_readyState_is_open (w : World) :
  isConnected w = true <-> readyState w = OPEN.
Proof.
  unfold isConnected, readyState.
  destruct (socket w) as [s|]; [|split; discriminate].
  destruct (readyState_of s w) as [r|]; [|split; discriminate].
  destruct (Z.eqb_spec r 0) as [->|Hne].
  - split; discriminate.
  - split; [now intros H%Z.eqb_eq|intros ->; reflexivity].
Qed.

(** ** [connect] on an open connection *)

Lemma connect_open (w : World) :
  isConnected w = true ->
  connect w = (say LLog "WebSocket already connected" w, Done).
Proof. intros H. unfold connect. now rewrite H. Qed.

(** X1. Any number of [connect()] calls on an open connection return
    resolved at once and leave one line each on the console: no transport
    and no promise is made, no field of the service changes, whatever
    [connectionPromise] holds. *)
Theorem connect_on_an_open_connection_only_logs (n : nat) (w : World) :
  isConnected w = true ->
  exists w',
    connect_n n w = (w', replicate n Done) /\
    sockets w' = sockets w /\
    promises w' = promises w /\
    timers w' = timers w /\
    socket w' = socket w /\
    connectionPromise w' = connectionPromise w /\
    reconnectAttempts w' = reconnectAttempts w /\
    messageHandlers w' = messageHandlers w /\
    url w' = url w /\
    console w' =
      console w ++ replicate n {| level := LLog; text := "WebSocket already connected" |}.
Proof.
  revert w. induction n as [|n IH]; intros w Hopen.
  - exists w. cbn. rewrite app_nil_r. repeat split.
  - cbn [connect_n replicate]. rewrite (connect_open w Hopen).
    destruct (IH (say LLog "WebSocket already connected" w) Hopen)
      as (w' & E & Hs & Hp & Ht & Hso & Hcp & Ha & Hh & Hu & Hc).
    exists w'. rewrite E. cbn in *.
    rewrite <- app_assoc in Hc. repeat split; assumption.
Qed.

(** ** Registering and removing listeners *)

Lemma filter_ne_fresh (h : nat) (l : list nat) :
  h ∉ l -> filter (fun h' => h' <> h) l = l.
Proof.
  induction l as [|x l IH]; intros Hnot; [reflexivity|].
  apply not_elem_of_cons in Hnot as [Hx Hl].
  rewrite filter_cons_True by congruence. now rewrite IH.
Qed.

(** X5. The function [onMessage(h)] returns removes every registration of
    [h], not only the one it was returned for; registering a handler that
    was not registered and removing it again gives the registry back;
    removing twice is removing once; removals of different handlers can be
    done in either order; and a removal touches nothing but the registry. *)
Theorem unregister_removes_every_registration (h g : nat) (w : World) :
  messageHandlers (unregister h (onMessage h w)) =
    filter (fun h' => h' <> h) (messageHandlers w) /\
  (h ∉ messageHandlers w -> unregister h (onMessage h w) = w) /\
  unregister h (unregister h w) = unregister h w /\
  unregister g (unregister h w) = unregister h (unregister g w) /\
  (sockets (unregister h w) = sockets w /\
   socket (unregister h w) = socket w /\
   connectionPromise (unregister h w) = connectionPromise w /\
   timers (unregister h w) = timers w).
Proof.
  assert (E : messageHandlers (unregister h (onMessage h w)) =
              filter (fun h' => h' <> h) (messageHandlers w)).
  { cbn. rewrite filter_app, filter_cons_False, filter_nil, app_nil_r by auto.
    reflexivity. }
  split; [exact E|]. split; [|split; [|split]].
  - intros Hfresh. destruct w as [so ra mh cp u sks ps ts co].
    unfold unregister, onMessage, set_messageHandlers in *. cbn in *. f_equal.
    rewrite E. now apply filter_ne_fresh.
  - unfold unregister, set_messageHandlers. cbn. f_equal.
    rewrite list_filter_filter. apply list_filter_iff. tauto.
  - unfold unregister, set_messageHandlers. cbn. f_equal.
    rewrite !list_filter_filter. apply list_filter_iff. tauto.
  - repeat split.
Qed.

(** ** [send] on an open connection *)

Lemma queued_queued (l1 l2 : list string) (sk : Socket) :
  queued l2 (queued l1 sk) = queued (l1 ++ l2) sk.
Proof. unfold queued. cbn. now rewrite app_assoc. Qed.

Lemma queued_nil (sk : Socket) : queued [] sk = sk.
Proof. destruct sk. unfold queued. cbn. now rewrite app_nil_r. Qed.

Lemma send_open (m : JS.Value) (w : World) (s : nat) (sk : Socket) :
  socket w = Some s ->
  sockets w !! s = Some sk ->
  sk_readyState sk = OPEN ->
  send m w = set_sockets (<[s := queued [JSON_stringify m] sk]> (sockets w)) w.
Proof.
  intros Hs Hsk Hr. unfold send, isConnected, readyState_of, socket_send.
  rewrite Hs, Hsk. cbn.
  destruct (Z.eqb_spec (sk_readyState sk) OPEN); [reflexivity|contradiction].
Qed.

(** X4. On an open connection a run of [send] calls hands the messages to
    the current transport in the order of the calls, each as its
    [JSON.stringify] text, after what was handed over before; nothing else
    changes: no other transport, no field of the service, no console
    line. *)
Theorem sends_are_handed_over_in_order
    (ms : list JS.Value) (w : World) (s : nat) (sk : Socket) :
  socket w = Some s ->
  sockets w !! s = Some sk ->
  sk_readyState sk = OPEN ->
  send_all ms w =
    set_sockets (<[s := queued (map JSON_stringify ms) sk]> (sockets w)) w.
Proof.
  revert w sk. induction ms as [|m ms IH]; intros w sk Hs Hsk Hr.
  - cbn. rewrite queued_nil, list_insert_id by exact Hsk. now destruct w.
  - unfold send_all in *. cbn [foldl]. rewrite (send_open m w s sk Hs Hsk Hr).
    set (w1 := set_sockets _ w).
    assert (Hsk1 : sockets w1 !! s = Some (queued [JSON_stringify m] sk)).
    { subst w1. cbn. apply list_lookup_insert_eq. now apply lookup_lt_Some in Hsk. }
    rewrite (IH w1 _ Hs Hsk1 Hr). subst w1. cbn.
    rewrite list_insert_insert_eq, queued_queued. reflexivity.
Qed.

(** ** [setUrl] *)

Lemma connect_busy (w : World) :
  isConnected w = true \/ connectionPromise w <> None ->
  sockets (fst (connect w)) = sockets w /\ url (fst (connect w)) = url w.
Proof.
  intros Hbusy. unfold connect. destruct (isConnected w); [split; reflexivity|].
  destruct (connectionPromise w); [split; reflexivity|].
  destruct Hbusy; [discriminate|contradiction].
Qed.

(** X10. [setUrl] changes the stored URL and nothing else: the transports
    already made and the connection state stay as they are. The new URL is
    the one the next new transport is made with, when [connect()] finds the
    service idle; a [connect()] that finds a connection open or an attempt
    outstanding makes no transport for it. *)
Theorem setUrl_is_used_by_the_next_new_transport (u : string) (w : World) :
  (sockets (setUrl u w) = sockets w /\
   socket (setUrl u w) = socket w /\
   connectionPromise (setUrl u w) = connectionPromise w /\
   isConnected (setUrl u w) = isConnected w) /\
  (isConnected w = false -> connectionPromise w = None ->
   WebSocket_accepts u = true ->
   sockets (fst (connect (setUrl u w))) =
     sockets w ++ [new_socket u (length (promises w))]) /\
  (isConnected w = true \/ connectionPromise w <> None ->
   sockets (fst (connect (setUrl u w))) = sockets w /\
   url (fst (connect (setUrl u w))) = u).
Proof.
  split; [repeat split|]. split.
  - intros Hnot Hidle Hok.
    destruct (connect_idle (setUrl u w) Hnot Hidle Hok) as (w1 & E & Hs & _).
    now rewrite E.
  - intros Hbusy. exact (connect_busy (setUrl u w) Hbusy).
Qed.

(** ** A URL the browser refuses *)

Lemma connect_refused (w : World) :
  isConnected w = false ->
  connectionPromise w = None ->
  WebSocket_accepts (url w) = false ->
  exists w1,
    connect w = (w1, Waits (length (promises w))) /\
    sockets w1 = sockets w /\
    promises w1 = promises w ++ [{| p_state := Rejected; p_catchers := 0 |}] /\
    connectionPromise w1 = Some (length (promises w)) /\
    socket w1 = socket w /\
    timers w1 = timers w.
Proof.
  intros Hnot Hidle Hbad. unfold connect. rewrite Hnot, Hidle.
  eexists. split; [reflexivity|].
  unfold connect_executor. cbn [url say set_console set_promises]. rewrite Hbad.
  unfold reject. cbn. rewrite list_lookup_middle by reflexivity. cbn.
  repeat split.
  replace (length (promises w)) with (length (promises w) + 0)%nat at 1 by lia.
  now rewrite insert_app_r.
Qed.

Lemma disconnect_promises (w : World) : promises (disconnect w) = promises w.
Proof.
  unfold disconnect, socket_close. destruct (socket w) as [s|]; [|reflexivity].
  now destruct (sockets w !! s).
Qed.

Lemma disconnected_is_idle (w : World) :
  isConnected (disconnect w) = false /\ connectionPromise (disconnect w) = None.
Proof.
  destruct (disconnect_fields w) as (Hs & _ & Hp).
  unfold isConnected. now rewrite Hs.
Qed.

(** ** The events, field by field *)

Lemma insert_last {A} (l : list A) (x y : A) :
  <[length l := y]> (l ++ [x]) = l ++ [y].
Proof.
  replace (length l) with (length l + 0)%nat by lia. now rewrite insert_app_r.
Qed.

Lemma open_event (s : nat) (sk : Socket) (c : nat) (w : World) :
  sockets w !! s = Some sk ->
  sk_readyState sk = CONNECTING ->
  promises w !! sk_promise sk = Some {| p_state := Pending; p_catchers := c |} ->
  exists w',
    step handler (SocketOpen s) w = Some w' /\
    sockets w' = <[s := moved OPEN false sk]> (sockets w) /\
    promises w' =
      <[sk_promise sk := {| p_state := Fulfilled; p_catchers := c |}]> (promises w) /\
    socket w' = socket w /\
    reconnectAttempts w' = 0 /\
    connectionPromise w' = None /\
    messageHandlers w' = messageHandlers w /\
    timers w' = timers w /\
    url w' = url w.
Proof.
  intros Hsk Hr Hp. cbn [step]. rewrite Hsk.
  destruct (Z.eqb_spec (sk_readyState sk) CONNECTING); [|contradiction].
  eexists. split; [reflexivity|].
  unfold onopen, resolve, set_readyState. rewrite Hsk. cbn. rewrite Hp. cbn.
  repeat split.
Qed.

Lemma close_event (s : nat) (sk : Socket) (w : World) :
  sockets w !! s = Some sk ->
  sk_close_fired sk = false ->
  exists w',
    step handler (SocketClose s) w = Some w' /\
    sockets w' = <[s := moved CLOSED true sk]> (sockets w) /\
    socket w' = None /\
    connectionPromise w' = None /\
    promises w' = promises w /\
    messageHandlers w' = messageHandlers w /\
    url w' = url w /\
    (reconnectAttempts w < maxReconnectAttempts ->
     reconnectAttempts w' = reconnectAttempts w + 1 /\
     timers w' = timers w ++
       [{| tm_delay := reconnectDelay * (reconnectAttempts w + 1);
           tm_pending := true |}]) /\
    (maxReconnectAttempts <= reconnectAttempts w ->
     reconnectAttempts w' = reconnectAttempts w /\ timers w' = timers w).
Proof.
  intros Hsk Hf. cbn [step]. rewrite Hsk, Hf.
  eexists. split; [reflexivity|].
  unfold onclose, attemptReconnect, set_readyState. rewrite Hsk. cbn.
  destruct (Z.ltb_spec (reconnectAttempts w) maxReconnectAttempts);
    cbn; repeat split; intros; lia.
Qed.

Lemma error_event (s : nat) (sk : Socket) (w : World) :
  sockets w !! s = Some sk ->
  sk_close_fired sk = false ->
  exists w',
    step handler (SocketError s) w = Some w' /\
    sockets w' = <[s := moved CLOSED false sk]> (sockets w) /\
    socket w' = None /\
    connectionPromise w' = None /\
    messageHandlers w' = messageHandlers w /\
    reconnectAttempts w' = reconnectAttempts w /\
    timers w' = timers w /\
    url w' = url w.
Proof.
  intros Hsk Hf. cbn [step]. rewrite Hsk, Hf.
  eexists. split; [reflexivity|]. unfold onerror.
  match goal with |- context [reject ?p ?v] =>
    destruct (reject_service p v) as (-> & -> & -> & -> & -> & -> & ->) end.
  unfold set_readyState. rewrite Hsk. cbn. repeat split.
Qed.

Lemma timer_event (t : nat) (tm : Timer) (w : World) :
  timers w !! t = Some tm ->
  tm_pending tm = true ->
  isConnected w = false ->
  connectionPromise w = None ->
  WebSocket_accepts (url w) = true ->
  exists w',
    step handler (TimerFires t) w = Some w' /\
    sockets w' = sockets w ++ [new_socket (url w) (length (promises w))] /\
    promises w' = promises w ++ [{| p_state := Pending; p_catchers := 1 |}] /\
    socket w' = Some (length (sockets w)) /\
    connectionPromise w' = Some (length (promises w)) /\
    messageHandlers w' = messageHandlers w /\
    reconnectAttempts w' = reconnectAttempts w /\
    timers w' = <[t := {| tm_delay := tm_delay tm; tm_pending := false |}]> (timers w) /\
    url w' = url w.
Proof.
  intros Htm Hp Hnot Hidle Hok. cbn [step]. rewrite Htm, Hp.
  eexists. split; [reflexivity|].
  unfold reconnect_callback, connect.
  match goal with |- context [isConnected ?v] =>
    change (isConnected v) with (isConnected w) end.
  rewrite Hnot. cbn [connectionPromise set_timers]. rewrite Hidle.
  unfold connect_executor. cbn [url say set_console set_promises set_timers].
  rewrite Hok.
  unfold attach_catch. cbn. rewrite list_lookup_middle by reflexivity. cbn.
  rewrite insert_last. repeat split.
Qed.

(** ** From connect to open, and from a drop back to open *)

Lemma connect_registry (w : World) :
  messageHandlers (fst (connect w)) = messageHandlers w /\
  url (fst (connect w)) = url w.
Proof.
  unfold connect. destruct (isConnected w); [split; reflexivity|].
  destruct (connectionPromise w); [split; reflexivity|].
  cbn. unfold connect_executor. cbn.
  destruct (WebSocket_accepts (url w)); [split; reflexivity|].
  match goal with |- context [reject ?p ?v] =>
    destruct (reject_service p v) as (_ & _ & -> & _ & -> & _ & _) end.
  split; reflexivity.
Qed.

Lemma opened_is_connected (s : nat) (sk : Socket) (w : World) :
  socket w = Some s ->
  sockets w !! s = Some sk ->
  sk_readyState sk = OPEN ->
  isConnected w = true /\ readyState w = OPEN.
Proof.
  intros Hs Hsk Hr. unfold isConnected, readyState, readyState_of.
  rewrite Hs, Hsk. cbn. rewrite Hr. split; reflexivity.
Qed.

(** X3. On an idle service with a URL the browser takes, [connect()]
    followed by the open event of the transport it made leaves the service
    connected to that transport: [isConnected] is true, the getter
    [readyState] answers [OPEN], the attempt counter is 0, no outcome is
    pending any more and the promise handed out is fulfilled; one transport
    was made, and listeners and timers are as before. *)
Theorem connect_then_open_is_connected (w : World) :
  isConnected w = false ->
  connectionPromise w = None ->
  WebSocket_accepts (url w) = true ->
  let s := length (sockets w) in
  let p := length (promises w) in
  exists w',
    run handler [Call AConnect; SocketOpen s] w = Some w' /\
    isConnected w' = true /\
    readyState w' = OPEN /\
    socket w' = Some s /\
    reconnectAttempts w' = 0 /\
    connectionPromise w' = None /\
    promise_state p w' = Some Fulfilled /\
    transports_made w' = S (transports_made w) /\
    messageHandlers w' = messageHandlers w /\
    timers w' = timers w.
Proof.
  intros Hnot Hidle Hok s p.
  destruct (connect_idle w Hnot Hidle Hok)
    as (w1 & E & Hs1 & Hp1 & Hcp1 & Hso1 & Ht1 & _).
  destruct (connect_registry w) as [Hh1 _]. rewrite E in Hh1. cbn [fst] in Hh1.
  assert (Hsk : sockets w1 !! s = Some (new_socket (url w) p)).
  { rewrite Hs1. now apply list_lookup_middle. }
  assert (Hpp : promises w1 !! p = Some {| p_state := Pending; p_catchers := 0 |}).
  { rewrite Hp1. now apply list_lookup_middle. }
  destruct (open_event s _ 0%nat w1 Hsk eq_refl Hpp)
    as (w' & Est & Hs' & Hp' & Hso' & Ha' & Hcp' & Hh' & Ht' & _).
  exists w'. cbn [run].
  change (step handler (Call AConnect) w) with (Some (fst (connect w))).
  rewrite E. cbn [fst]. rewrite Est.
  assert (Hsk' : sockets w' !! s = Some (moved OPEN false (new_socket (url w) p))).
  { rewrite Hs'. apply list_lookup_insert_eq. now apply lookup_lt_Some in Hsk. }
  destruct (opened_is_connected s _ w' (eq_trans Hso' Hso1) Hsk' eq_refl) as [Hc Hr].
  split; [reflexivity|]. split; [exact Hc|]. split; [exact Hr|].
  split; [exact (eq_trans Hso' Hso1)|]. split; [exact Ha'|]. split; [exact Hcp'|].
  split.
  { unfold promise_state. rewrite Hp'. cbn.
    rewrite list_lookup_insert_eq; [reflexivity|]. now apply lookup_lt_Some in Hpp. }
  split.
  { unfold transports_made. rewrite Hs', length_insert, Hs1, length_app. cbn. lia. }
  split; congruence.
Qed.

(** X17. The close event of a transport that finds the counter below 5 is
    made good by the timer it sets: when that timer runs out it makes a new
    transport to the stored URL, and the open event of that transport leaves
    the service connected to it with the counter back at 0. The listeners
    are the same, in the same order, before and after. *)
Theorem a_drop_is_recovered_by_its_timer (s : nat) (sk : Socket) (w : World) :
  sockets w !! s = Some sk ->
  sk_close_fired sk = false ->
  reconnectAttempts w < maxReconnectAttempts ->
  WebSocket_accepts (url w) = true ->
  let t := length (timers w) in
  let s' := length (sockets w) in
  exists w',
    run handler [SocketClose s; TimerFires t; SocketOpen s'] w = Some w' /\
    isConnected w' = true /\
    socket w' = Some s' /\
    sockets w' !! s' = Some (moved OPEN false (new_socket (url w) (length (promises w)))) /\
    reconnectAttempts w' = 0 /\
    connectionPromise w' = None /\
    messageHandlers w' = messageHandlers w /\
    transports_made w' = S (transports_made w).
Proof.
  intros Hsk Hf Hlt Hok t s'.
  destruct (close_event s sk w Hsk Hf)
    as (w1 & E1 & Hs1 & Hso1 & Hcp1 & Hp1 & Hh1 & Hu1 & Hbelow & _).
  destruct (Hbelow Hlt) as [Ha1 Ht1].
  assert (Htm : timers w1 !! t =
                Some {| tm_delay := reconnectDelay * (reconnectAttempts w + 1);
                        tm_pending := true |}).
  { rewrite Ht1. now apply list_lookup_middle. }
  assert (Hnot1 : isConnected w1 = false).
  { unfold isConnected. now rewrite Hso1. }
  assert (Hok1 : WebSocket_accepts (url w1) = true) by now rewrite Hu1.
  destruct (timer_event t _ w1 Htm eq_refl Hnot1 Hcp1 Hok1)
    as (w2 & E2 & Hs2 & Hp2 & Hso2 & Hcp2 & Hh2 & Ha2 & Ht2 & Hu2).
  assert (Hlen1 : length (sockets w1) = s').
  { rewrite Hs1. apply length_insert. }
  rewrite Hlen1, Hu1, Hp1 in *.
  assert (Hsk2 : sockets w2 !! s' = Some (new_socket (url w) (length (promises w)))).
  { rewrite Hs2. apply list_lookup_middle. now rewrite <- Hlen1. }
  assert (Hpp2 : promises w2 !! length (promises w) =
                 Some {| p_state := Pending; p_catchers := 1 |}).
  { rewrite Hp2. now apply list_lookup_middle. }
  destruct (open_event s' _ 1%nat w2 Hsk2 eq_refl Hpp2)
    as (w3 & E3 & Hs3 & Hp3 & Hso3 & Ha3 & Hcp3 & Hh3 & Ht3 & _).
  exists w3. cbn [run]. rewrite E1, E2, E3.
  assert (Hsk3 : sockets w3 !! s' =
                 Some (moved OPEN false (new_socket (url w) (length (promises w))))).
  { rewrite Hs3. apply list_lookup_insert_eq. now apply lookup_lt_Some in Hsk2. }
  destruct (opened_is_connected s' _ w3 (eq_trans Hso3 Hso2) Hsk3 eq_refl) as [Hc _].
  split; [reflexivity|]. split; [exact Hc|]. split; [exact (eq_trans Hso3 Hso2)|].
  split; [exact Hsk3|]. split; [exact Ha3|]. split; [exact Hcp3|].
  split; [congruence|].
  unfold transports_made. rewrite Hs3, length_insert, Hs2, length_app, Hs1, length_insert.
  cbn. lia.
Qed.

(** ** Events of a transport that is not the current one *)

Lemma step_close_or_error (s : nat) (w w' : World) :
  step handler (SocketClose s) w = Some w' \/
  step handler (SocketError s) w = Some w' ->
  exists sk, sockets w !! s = Some sk /\ sk_close_fired sk = false.
Proof.
  intros [H|H]; cbn in H; destruct (sockets w !! s) as [sk|]; try discriminate;
    destruct (sk_close_fired sk) eqn:Hf; try discriminate; eauto.
Qed.

(** X8. The close handler and the error handler do not look at which
    transport the event belongs to: after the close or error event of any
    transport, the current one or an earlier one, the service holds no
    transport and no pending outcome and [isConnected] is false, while every
    other transport is left as it is, open or not; a [send] that follows
    reaches no transport. *)
Theorem any_close_or_error_forgets_the_current_transport (s : nat) (w w' : World) :
  step handler (SocketClose s) w = Some w' \/
  step handler (SocketError s) w = Some w' ->
  socket w' = None /\
  connectionPromise w' = None /\
  isConnected w' = false /\
  (forall s', s' <> s -> sockets w' !! s' = sockets w !! s') /\
  (forall m, sockets (send m w') = sockets w').
Proof.
  intros Hstep. destruct (step_close_or_error s w w' Hstep) as (sk & Hsk & Hf).
  assert (H : exists r b, sockets w' = <[s := moved r b sk]> (sockets w) /\
                          socket w' = None /\ connectionPromise w' = None).
  { destruct Hstep as [Hstep|Hstep].
    - destruct (close_event s sk w Hsk Hf) as (v & E & Hs & Hso & Hcp & _).
      rewrite E in Hstep. injection Hstep as <-. eauto.
    - destruct (error_event s sk w Hsk Hf) as (v & E & Hs & Hso & Hcp & _).
      rewrite E in Hstep. injection Hstep as <-. eauto. }
  destruct H as (r & b & Hs & Hso & Hcp).
  assert (Hnot : isConnected w' = false) by (unfold isConnected; now rewrite Hso).
  split; [exact Hso|]. split; [exact Hcp|]. split; [exact Hnot|]. split.
  - intros s' Hne. rewrite Hs. now apply list_lookup_insert_ne.
  - intros m. unfold send. now rewrite Hnot.
Qed.

(** ** What leaves the listeners alone *)

Lemma run_action_registry (a : action) (w : World) :
  ~ registry_call a ->
  messageHandlers (fst (run_action a w)) = messageHandlers w.
Proof.
  intros Hno. destruct a; cbn [run_action fst]; try reflexivity;
    try (exfalso; apply Hno; exact I).
  - apply connect_registry.
  - unfold send, socket_send. destruct (isConnected w); [|reflexivity].
    destruct (socket w) as [s|]; [|reflexivity].
    now destruct (sockets w !! s).
Qed.

Lemma step_registry (e : event) (w w' : World) :
  (forall h m v, Forall (fun a => ~ registry_call a) (handler h m v)) ->
  (forall a, e = Call a -> ~ registry_call a) ->
  step handler e w = Some w' ->
  messageHandlers w' = messageHandlers w.
Proof.
  intros Hh He Hstep. destruct e as [a|s|s data|s|s|t].
  - cbn in Hstep. injection Hstep as <-. apply run_action_registry. now apply He.
  - apply step_SocketOpen in Hstep. destruct Hstep as (sk & _ & _ & ->).
    unfold onopen.
    match goal with |- context [resolve ?p ?v] =>
      destruct (resolve_service p v) as (_ & _ & -> & _) end.
    cbn. now destruct (set_readyState_service s OPEN false w) as (_ & _ & -> & _).
  - cbn in Hstep. destruct (sockets w !! s) as [sk|]; [|discriminate].
    destruct (sk_readyState sk =? OPEN); [|discriminate].
    injection Hstep as <-.
    apply (onmessage_keeps handler
             (fun v v' => messageHandlers v' = messageHandlers v)
             (fun a => ~ registry_call a)); auto.
    + intros; congruence.
    + intros a v Ha. now apply run_action_registry.
  - destruct (step_close_or_error s w w' (or_intror Hstep)) as (sk & Hsk & Hf).
    destruct (error_event s sk w Hsk Hf) as (v & E & _ & _ & _ & Hm & _).
    rewrite E in Hstep. now injection Hstep as <-.
  - destruct (step_close_or_error s w w' (or_introl Hstep)) as (sk & Hsk & Hf).
    destruct (close_event s sk w Hsk Hf) as (v & E & _ & _ & _ & _ & Hm & _).
    rewrite E in Hstep. now injection Hstep as <-.
  - cbn in Hstep. destruct (timers w !! t) as [tm|]; [|discriminate].
    destruct (tm_pending tm); [|discriminate]. injection Hstep as <-.
    unfold reconnect_callback.
    match goal with |- context [connect ?v] =>
      pose proof (connect_registry v) as [Hc _]; destruct (connect v) as [v1 o] end.
    cbn in Hc. rewrite <- Hc. unfold attach_catch. destruct o as [|p]; [reflexivity|].
    destruct (promises v1 !! p) as [[[] c]|]; reflexivity.
Qed.

(** X18. The listener registry is changed by [onMessage], by the unregister
    functions and by [disconnect()] alone. Through any run of tasks in which
    neither client code nor a handler calls one of these (connects, sends,
    messages, errors, drops, reconnection timers, opens) the listeners are
    the same and in the same order at the end as at the start. *)
Theorem listeners_survive_reconnection (es : list event) (w w' : World) :
  (forall h m v, Forall (fun a => ~ registry_call a) (handler h m v)) ->
  Forall (fun e => forall a, e = Call a -> ~ registry_call a) es ->
  run handler es w = Some w' ->
  messageHandlers w' = messageHandlers w.
Proof.
  intros Hh Hes. revert w. induction Hes as [|e es He _ IH]; intros w Hrun; cbn in Hrun.
  - now injection Hrun as <-.
  - destruct (step handler e w) as [w1|] eqn:Hstep; [|discriminate].
    rewrite (IH w1 Hrun). exact (step_registry e w w1 Hh He Hstep).
Qed.

(** ** A handler that throws *)

Lemma run_actions_throws (acts : list action) (w : World) :
  AThrow ∈ acts -> snd (run_actions acts w) = true.
Proof.
  revert w. induction acts as [|a acts IH]; intros w Hin.
  - now apply elem_of_nil in Hin.
  - apply elem_of_cons in Hin. cbn.
    destruct a; cbn; try (apply IH; destruct Hin as [Hin|Hin]; [discriminate|exact Hin]).
    reflexivity.
Qed.

Lemma run_actions_returns (acts : list action) (w : World) :
  AThrow ∉ acts -> snd (run_actions acts w) = false.
Proof.
  revert w. induction acts as [|a acts IH]; intros w Hnot; [reflexivity|].
  apply not_elem_of_cons in Hnot as [Hne Hnot]. cbn.
  destruct a; cbn; try (apply IH; exact Hnot). congruence.
Qed.

Lemma forEach_stops_at_a_throw (pre post : list nat) (h : nat) (m : JS.Value)
    (w : World) :
  (forall g v, g ∈ pre -> AThrow ∉ handler g m v) ->
  (forall v, AThrow ∈ handler h m v) ->
  called (forEach handler (pre ++ h :: post) m w) = pre ++ [h] /\
  pass_threw (forEach handler (pre ++ h :: post) m w) = true.
Proof.
  intros Hpre Hh. unfold called. revert w.
  induction pre as [|g pre IH]; intros w; cbn [app forEach].
  - pose proof (run_actions_throws (handler h m w) w (Hh w)) as Ht.
    destruct (run_actions (handler h m w) w) as [w1 threw]. cbn in Ht. subst threw.
    split; reflexivity.
  - assert (Hg : AThrow ∉ handler g m w) by (apply Hpre; left).
    pose proof (run_actions_returns (handler g m w) w Hg) as Ht.
    destruct (run_actions (handler g m w) w) as [w1 threw]. cbn in Ht. subst threw.
    destruct (IH (fun g' v Hin => Hpre g' v (list_elem_of_further _ _ _ Hin)) w1)
      as [Hc Hthrew].
    cbn. rewrite Hc. split; [reflexivity|exact Hthrew].
Qed.

(** X6. A handler that throws ends the pass: the handlers registered before
    it and the thrower itself are called, the handlers registered after it
    are not called for that message. [onmessage] catches the exception, so
    none leaves it, and reports it on the console with the line meant for
    parse errors. *)
Theorem a_throwing_handler_starves_the_later_ones
    (pre post : list nat) (h : nat) (m : JS.Value) (data : string) (w : World) :
  messageHandlers w = pre ++ h :: post ->
  (forall g v, g ∈ pre -> AThrow ∉ handler g m v) ->
  (forall v, AThrow ∈ handler h m v) ->
  JSON_parse data = Some m ->
  called (onmessage handler data w) = pre ++ [h] /\
  pass_threw (onmessage handler data w) = false /\
  exists before,
    console (pass_world (onmessage handler data w)) =
      before ++ [{| level := LError; text := "Error parsing WebSocket message:" |}].
Proof.
  intros Hreg Hpre Hh Hparse. unfold onmessage, notifyHandlers. rewrite Hparse.
  cbn [messageHandlers say set_console]. rewrite Hreg.
  destruct (forEach_stops_at_a_throw pre post h m
              (say LLog "Received message:" w) Hpre Hh) as [Hc Ht].
  cbn [say set_console] in Hc, Ht. rewrite Ht. cbn.
  split; [exact Hc|]. split; [reflexivity|]. eexists. reflexivity.
Qed.

(** ** Bounds of the reconnection policy *)

Lemma bounded_same (w w' : World) :
  timers w' = timers w ->
  reconnectAttempts w' = reconnectAttempts w ->
  bounded w -> bounded w'.
Proof. unfold bounded. now intros -> ->. Qed.

Lemma step_bounded (e : event) (w w' : World) :
  bounded w -> step handler e w = Some w' -> bounded w'.
Proof.
  intros Hb Hstep. destruct e as [a|s|s data|s|s|t].
  - cbn in Hstep. injection Hstep as <-.
    destruct (run_action_keeps_timers a w) as [Ht Ha]. exact (bounded_same _ _ Ht Ha Hb).
  - apply step_SocketOpen in Hstep. destruct Hstep as (sk & _ & _ & ->).
    destruct Hb as [_ Hd]. unfold bounded, onopen.
    match goal with |- context [resolve ?p ?v] =>
      destruct (resolve_service p v) as (_ & -> & _ & _ & _ & _ & -> & _) end.
    cbn. destruct (set_readyState_service s OPEN false w)
      as (_ & _ & _ & _ & _ & _ & -> & _).
    split; [unfold maxReconnectAttempts; lia|exact Hd].
  - cbn in Hstep. destruct (sockets w !! s) as [sk|]; [|discriminate].
    destruct (sk_readyState sk =? OPEN); [|discriminate].
    injection Hstep as <-. revert Hb.
    apply (onmessage_keeps handler (fun v v' => bounded v -> bounded v') (fun _ => True));
      auto.
    + intros a v _. destruct (run_action_keeps_timers a v) as [Ht Ha].
      exact (bounded_same _ _ Ht Ha).
    + intros h m v. apply Forall_forall. auto.
  - destruct (step_close_or_error s w w' (or_intror Hstep)) as (sk & Hsk & Hf).
    destruct (error_event s sk w Hsk Hf) as (v & E & _ & _ & _ & _ & Ha & Ht & _).
    rewrite E in Hstep. injection Hstep as <-. exact (bounded_same _ _ Ht Ha Hb).
  - destruct (step_close_or_error s w w' (or_introl Hstep)) as (sk & Hsk & Hf).
    destruct (close_event s sk w Hsk Hf)
      as (v & E & _ & _ & _ & _ & _ & _ & Hbelow & Hceil).
    rewrite E in Hstep. injection Hstep as <-.
    destruct (Z.lt_ge_cases (reconnectAttempts w) maxReconnectAttempts) as [Hlt|Hge].
    + destruct (Hbelow Hlt) as [Ha Ht]. destruct Hb as [[H0 _] Hd].
      unfold bounded. rewrite Ha, Ht. split; [lia|].
      apply Forall_app. split; [exact Hd|].
      repeat constructor; cbn; unfold reconnectDelay, maxReconnectAttempts in *; lia.
    + destruct (Hceil Hge) as [Ha Ht]. exact (bounded_same _ _ Ht Ha Hb).
  - cbn in Hstep. destruct (timers w !! t) as [tm|] eqn:Htm; [|discriminate].
    destruct (tm_pending tm); [|discriminate]. injection Hstep as <-.
    unfold reconnect_callback.
    match goal with |- context [connect ?v] =>
      pose proof (connect_keeps v) as [Ht Ha]; destruct (connect v) as [v1 o] end.
    cbn in Ht, Ha. destruct (attach_catch_keeps o v1) as [Ht' _].
    assert (Ha' : reconnectAttempts (attach_catch o v1) = reconnectAttempts v1).
    { unfold attach_catch. destruct o as [|p]; [reflexivity|].
      destruct (promises v1 !! p) as [[[] c]|]; reflexivity. }
    destruct Hb as [Hc Hd]. unfold bounded. rewrite Ha', Ha, Ht', Ht.
    split; [exact Hc|]. apply Forall_insert; [exact Hd|].
    exact (Forall_lookup_1 _ _ _ _ Hd Htm).
Qed.

(** X7. Through every run of tasks the attempt counter stays between 0 and
    5 and every timer the service has set has a delay between 1000 and
    5000 ms, whatever client code and handlers do: the counter is never
    negative and never passes the ceiling, and no reconnection is ever put
    off for more than five base delays. *)
Theorem counter_and_delays_stay_bounded (es : list event) (w w' : World) :
  bounded w ->
  run handler es w = Some w' ->
  0 <= reconnectAttempts w' <= 5 /\
  Forall (fun tm => 1000 <= tm_delay tm <= 5000) (timers w').
Proof.
  intros Hb Hrun.
  assert (H : bounded w').
  { revert w Hb Hrun. induction es as [|e es IH]; intros w Hb Hrun; cbn in Hrun.
    - now injection Hrun as <-.
    - destruct (step handler e w) as [w1|] eqn:Hstep; [|discriminate].
      exact (IH w1 (step_bounded e w w1 Hb Hstep) Hrun). }
  exact H.
Qed.

(** ** The editor: inbound *)

(** X11. Handling an inbound message never sends and never touches the
    service, whatever the message is: at most a console line is added.
    A message of another type than [content_update] leaves the buffer, the
    origin flag and the flag's timers alone; [user_count_update] overwrites
    the count with [payload.count] as it is; any other type changes nothing
    in the editor. *)
Theorem inbound_handling_never_transmits
    (message : JS.Value) (e : Editor.State) (w : World) :
  let r := Editor.handleWebSocketMessage message e w in
  (sockets (Editor.world r) = sockets w /\
   socket (Editor.world r) = socket w /\
   connectionPromise (Editor.world r) = connectionPromise w /\
   messageHandlers (Editor.world r) = messageHandlers w /\
   promises (Editor.world r) = promises w /\
   timers (Editor.world r) = timers w /\
   reconnectAttempts (Editor.world r) = reconnectAttempts w) /\
  (forall t, JS.get message "type" = Some t ->
     JS.is_str t "content_update" = false ->
     Editor.content (Editor.editor r) = Editor.content e /\
     Editor.isRemoteUpdate (Editor.editor r) = Editor.isRemoteUpdate e /\
     Editor.pending (Editor.editor r) = Editor.pending e) /\
  (forall t payload n, JS.get message "type" = Some t ->
     JS.is_str t "content_update" = false ->
     JS.is_str t "user_count_update" = true ->
     JS.get message "payload" = Some payload ->
     JS.get payload "count" = Some n ->
     Editor.usersCount (Editor.editor r) = n /\ Editor.threw r = false) /\
  (forall t, JS.get message "type" = Some t ->
     JS.is_str t "content_update" = false ->
     JS.is_str t "user_count_update" = false ->
     Editor.editor r = e /\ Editor.threw r = false).
Proof.
  cbv zeta. unfold Editor.handleWebSocketMessage. split; [|split; [|split]].
  - repeat case_match; cbn; repeat split.
  - intros t Ht Hc. rewrite Ht, Hc. repeat case_match; cbn; repeat split.
  - intros t payload n Ht Hc Hu Hp Hn. rewrite Ht, Hc, Hu, Hp, Hn. cbn. split; reflexivity.
  - intros t Ht Hc Hu. rewrite Ht, Hc, Hu. case_match; cbn; split; reflexivity.
Qed.

(** ** The editor: outbound *)

(** X12. A change event of the text area with the origin flag down always
    puts the new text into the buffer. With the connection open it hands
    exactly one [content_update] carrying that text to the current
    transport, and nothing else changes; with the connection not open it
    sends nothing and, as the editor asks [isConnected] itself before it
    calls [send], leaves the service and the console untouched. *)
Theorem a_local_edit_goes_out_once_when_open
    (text : string) (e : Editor.State) (w : World) :
  Editor.isRemoteUpdate e = false ->
  let r := Editor.handleContentChange text e w in
  Editor.content (Editor.editor r) = JS.Str text /\
  Editor.isRemoteUpdate (Editor.editor r) = false /\
  (forall s sk, socket w = Some s -> sockets w !! s = Some sk ->
     sk_readyState sk = OPEN ->
     Editor.world r =
       set_sockets
         (<[s := queued [JSON_stringify (Editor.content_update text)] sk]> (sockets w))
         w) /\
  (isConnected w = false -> Editor.world r = w).
Proof.
  intros Hflag. cbv zeta. unfold Editor.handleContentChange. cbn. rewrite Hflag. cbn.
  split; [now destruct (isConnected w)|]. split; [now destruct (isConnected w)|]. split.
  - intros s sk Hs Hsk Hr.
    destruct (opened_is_connected s sk w Hs Hsk Hr) as [-> _]. cbn.
    exact (send_open _ w s sk Hs Hsk Hr).
  - now intros ->.
Qed.

(** X13. The origin flag is one boolean shared by all remote updates: when
    two [content_update] messages are handled one after the other, the timer
    of the first clears the flag while the timer of the second is still
    pending, and from then on a change event on an open connection is sent,
    before the second update's own timer has run out. *)
Theorem an_earlier_timer_ends_a_later_echo_window
    (t1 t2 text : string) (e : Editor.State) (w : World) :
  let e1 := Editor.editor (Editor.handleWebSocketMessage (Editor.content_update t1) e w) in
  let e2 := Editor.editor (Editor.handleWebSocketMessage (Editor.content_update t2) e1 w) in
  exists e3,
    Editor.window_closes (length (Editor.pending e)) e2 = Some e3 /\
    Editor.isRemoteUpdate e3 = false /\
    Editor.content e3 = JS.Str t2 /\
    Editor.pending e3 =
      Editor.pending e ++ [{| tm_delay := 100; tm_pending := false |};
                           {| tm_delay := 100; tm_pending := true |}] /\
    (isConnected w = true ->
     Editor.world (Editor.handleContentChange text e3 w) =
       send (Editor.content_update text) w).
Proof.
  cbv zeta. unfold Editor.window_closes. cbn.
  rewrite <- app_assoc. cbn.
  rewrite list_lookup_middle by reflexivity. cbn.
  eexists. split; [reflexivity|]. cbn. repeat split.
  - replace (length (Editor.pending e)) with (length (Editor.pending e) + 0)%nat
      by lia.
    now rewrite insert_app_r.
  - intros Hopen. unfold Editor.handleContentChange. cbn. now rewrite Hopen.
Qed.

(** ** The editor's mount effect *)

Lemma effect_idle (h : nat) (w : World) :
  isConnected w = false ->
  connectionPromise w = None ->
  WebSocket_accepts (url w) = true ->
  exists w1,
    Mount.effect h w = (w1, Mount.Awaiting (Waits (length (promises w)))) /\
    sockets w1 = sockets w ++ [new_socket (url w) (length (promises w))] /\
    promises w1 = promises w ++ [{| p_state := Pending; p_catchers := 0 |}] /\
    connectionPromise w1 = Some (length (promises w)) /\
    messageHandlers w1 = messageHandlers w ++ [h] /\
    isConnected w1 = false.
Proof.
  intros Hnot Hidle Hok. unfold Mount.effect.
  set (v := say LLog "Establishing new WebSocket connection" _).
  change (isConnected (onMessage h (say LLog "Editor component mounted" w)))
    with (isConnected w).
  rewrite Hnot.
  destruct (connect_idle v Hnot Hidle Hok) as (w1 & E & Hs & Hp & Hcp & _ & _ & Hn).
  destruct (connect_registry v) as [Hh _]. rewrite E in Hh.
  exists w1. rewrite E. repeat split; assumption.
Qed.

Lemma effect_in_progress (h p : nat) (w : World) :
  isConnected w = false ->
  connectionPromise w = Some p ->
  exists w1,
    Mount.effect h w = (w1, Mount.Awaiting (Waits p)) /\
    sockets w1 = sockets w /\
    promises w1 = promises w /\
    connectionPromise w1 = Some p /\
    messageHandlers w1 = messageHandlers w ++ [h] /\
    isConnected w1 = false.
Proof.
  intros Hnot Hp. unfold Mount.effect.
  set (v := say LLog "Establishing new WebSocket connection" _).
  change (isConnected (onMessage h (say LLog "Editor component mounted" w)))
    with (isConnected w).
  rewrite Hnot. rewrite (connect_in_progress p v Hnot Hp).
  eexists. split; [reflexivity|]. repeat split; assumption.
Qed.

Lemma effects_in_progress (hs : list nat) (p : nat) (w : World) :
  isConnected w = false ->
  connectionPromise w = Some p ->
  exists w',
    Mount.effects hs w = (w', replicate (length hs) (Mount.Awaiting (Waits p))) /\
    sockets w' = sockets w /\
    promises w' = promises w /\
    messageHandlers w' = messageHandlers w ++ hs.
Proof.
  revert w. induction hs as [|h hs IH]; intros w Hnot Hp.
  - exists w. cbn. rewrite app_nil_r. repeat split.
  - destruct (effect_in_progress h p w Hnot Hp) as (w1 & E & Hs & Hps & Hcp & Hh & Hn).
    destruct (IH w1 Hn Hcp) as (w' & E' & Hs' & Hps' & Hh').
    exists w'. cbn [Mount.effects length replicate]. rewrite E, E'.
    split; [reflexivity|]. split; [congruence|]. split; [congruence|].
    rewrite Hh', Hh, <- app_assoc. reflexivity.
Qed.

(** X15. Editors that mount one after the other on an idle service share
    one connection attempt: the first makes the one transport, all of them
    await the same promise, and their handlers are registered in mount
    order. No banner has been told anything while the promise is pending;
    the open event of the transport tells every banner [true], its error
    event tells every banner [false]. *)
Theorem editors_mounting_together_share_one_transport
    (h : nat) (hs : list nat) (w : World) :
  isConnected w = false ->
  connectionPromise w = None ->
  WebSocket_accepts (url w) = true ->
  let p := length (promises w) in
  let s := length (sockets w) in
  exists w',
    Mount.effects (h :: hs) w =
      (w', replicate (S (length hs)) (Mount.Awaiting (Waits p))) /\
    sockets w' = sockets w ++ [new_socket (url w) p] /\
    messageHandlers w' = messageHandlers w ++ h :: hs /\
    Mount.banner p w' = None /\
    (exists w1, step handler (SocketOpen s) w' = Some w1 /\
                Mount.banner p w1 = Some true) /\
    (exists w2, step handler (SocketError s) w' = Some w2 /\
                Mount.banner p w2 = Some false).
Proof.
  intros Hnot Hidle Hok p s.
  destruct (effect_idle h w Hnot Hidle Hok) as (w1 & E & Hs & Hps & Hcp & Hh & Hn).
  destruct (effects_in_progress hs p w1 Hn Hcp) as (w' & E' & Hs' & Hps' & Hh').
  assert (Hp : promises w' !! p = Some {| p_state := Pending; p_catchers := 0 |}).
  { rewrite Hps', Hps. now apply list_lookup_middle. }
  assert (Hsk : sockets w' !! s = Some (new_socket (url w) p)).
  { rewrite Hs', Hs. now apply list_lookup_middle. }
  exists w'. cbn [Mount.effects replicate]. rewrite E, E'.
  split; [reflexivity|]. split; [exact (eq_trans Hs' Hs)|]. split.
  { rewrite Hh', Hh, <- app_assoc. reflexivity. }
  split.
  { unfold Mount.banner. now rewrite Hp. }
  split.
  - eexists. split.
    + cbn [step]. rewrite Hsk. cbn. reflexivity.
    + pose proof (onopen_settles s p w' Hp) as Hst. unfold promise_state in Hst.
      unfold Mount.banner. now rewrite Hst.
  - eexists. split.
    + cbn [step]. rewrite Hsk. cbn. reflexivity.
    + pose proof (onerror_settles s p 0%nat w' Hp) as Hst. unfold promise_state in Hst.
      unfold Mount.banner. now rewrite Hst.
Qed.

Lemma effect_open (h : nat) (w : World) :
  isConnected w = true ->
  exists w1,
    Mount.effect h w = (w1, Mount.Reused) /\
    sockets w1 = sockets w /\
    promises w1 = promises w /\
    socket w1 = socket w /\
    connectionPromise w1 = connectionPromise w /\
    messageHandlers w1 = messageHandlers w ++ [h] /\
    isConnected w1 = true.
Proof.
  intros Hopen. unfold Mount.effect.
  change (isConnected (onMessage h (say LLog "Editor component mounted" w)))
    with (isConnected w).
  rewrite Hopen. eexists. split; [reflexivity|]. repeat split. exact Hopen.
Qed.

(** X16. Editors that mount on an open connection reuse it: each is told
    at once that it is connected, none calls [connect()], so no transport
    and no promise is made, and their handlers join the registry in mount
    order, after the handlers already there. *)
Theorem mounting_on_an_open_connection_reuses_it (hs : list nat) (w : World) :
  isConnected w = true ->
  exists w',
    Mount.effects hs w = (w', replicate (length hs) Mount.Reused) /\
    sockets w' = sockets w /\
    promises w' = promises w /\
    socket w' = socket w /\
    messageHandlers w' = messageHandlers w ++ hs.
Proof.
  revert w. induction hs as [|h hs IH]; intros w Hopen.
  - exists w. cbn. rewrite app_nil_r. repeat split.
  - destruct (effect_open h w Hopen) as (w1 & E & Hs & Hps & Hso & _ & Hh & Ho).
    destruct (IH w1 Ho) as (w' & E' & Hs' & Hps' & Hso' & Hh').
    exists w'. cbn [Mount.effects length replicate]. rewrite E, E'.
    split; [reflexivity|]. split; [congruence|]. split; [congruence|].
    split; [congruence|]. rewrite Hh', Hh, <- app_assoc. reflexivity.
Qed.

Lemma effect_registry (h : nat) (w : World) :
  messageHandlers (fst (Mount.effect h w)) = messageHandlers w ++ [h].
Proof.
  unfold Mount.effect.
  destruct (isConnected _); [reflexivity|].
  match goal with |- context [connect ?v] =>
    pose proof (connect_registry v) as [Hc _]; destruct (connect v) as [v1 o] end.
  cbn in *. exact Hc.
Qed.

(** X14. Unmounting an editor removes its handler and nothing else: the
    transports, the current transport, the pending outcome, the promises
    and the timers are as before, so the connection stays up for the other
    users of the service; a mount followed by the unmount gives back the
    registry that was there before the mount. *)
Theorem unmounting_leaves_the_connection (h : nat) (w : World) :
  (sockets (Mount.cleanup h w) = sockets w /\
   socket (Mount.cleanup h w) = socket w /\
   isConnected (Mount.cleanup h w) = isConnected w /\
   connectionPromise (Mount.cleanup h w) = connectionPromise w /\
   promises (Mount.cleanup h w) = promises w /\
   timers (Mount.cleanup h w) = timers w) /\
  (h ∉ messageHandlers (Mount.cleanup h w)) /\
  (h ∉ messageHandlers w ->
   messageHandlers (Mount.cleanup h (fst (Mount.effect h w))) = messageHandlers w).
Proof.
  split; [repeat split|]. split.
  - unfold Mount.cleanup, unregister. cbn. intros Hin.
    apply list_elem_of_filter in Hin. now destruct Hin as [Hne _].
  - intros Hfresh. unfold Mount.cleanup, unregister.
    cbn [messageHandlers say set_console set_messageHandlers].
    rewrite effect_registry, filter_app, filter_cons_False, filter_nil, app_nil_r by auto.
    now apply filter_ne_fresh.
Qed.

(** ** [disconnect] and the calls around it *)

(** X20. After [disconnect()] the service can be connected again: with a
    URL the browser takes, the next [connect()] makes one new transport and
    hands out a fresh pending promise, whatever state the service was in.
    The listeners that were registered before the [disconnect()] are gone:
    the new connection starts with an empty registry. *)
Theorem connect_after_disconnect_starts_afresh (w : World) :
  WebSocket_accepts (url w) = true ->
  exists w',
    connect (disconnect w) = (w', Waits (length (promises w))) /\
    transports_made w' = S (transports_made w) /\
    socket w' = Some (transports_made w) /\
    promise_state (length (promises w)) w' = Some Pending /\
    messageHandlers w' = [].
Proof.
  intros Hok. destruct (disconnected_is_idle w) as [Hn Hi].
  assert (Hu : url (disconnect w) = url w).
  { unfold disconnect, socket_close. destruct (socket w) as [s|]; [|reflexivity].
    now destruct (sockets w !! s). }
  rewrite <- Hu in Hok.
  destruct (connect_idle (disconnect w) Hn Hi Hok)
    as (w' & E & Hs & Hps & _ & Hso & _).
  destruct (connect_registry (disconnect w)) as [Hh _]. rewrite E in Hh. cbn in Hh.
  destruct (disconnect_keeps w) as (_ & _ & Hl).
  rewrite disconnect_promises in *. rewrite Hl in Hso.
  exists w'. split; [exact E|]. split.
  { unfold transports_made. rewrite Hs, length_app, Hl. cbn. lia. }
  split; [exact Hso|]. split.
  { unfold promise_state. rewrite Hps. now rewrite list_lookup_middle by reflexivity. }
  exact Hh.
Qed.

(** X19. A [disconnect()] while a connection attempt is outstanding tells
    the callers of that [connect()] nothing: their promise stays pending,
    while the service forgets it and the transport starts closing. The
    error event of that transport rejects the promise; its close event does
    not settle it, and after the close event the transport has no open or
    error event left to come. *)
Theorem disconnect_leaves_the_outcome_pending (w : World) :
  isConnected w = false ->
  connectionPromise w = None ->
  WebSocket_accepts (url w) = true ->
  let s := length (sockets w) in
  let p := length (promises w) in
  exists w',
    run handler [Call AConnect; Call ADisconnect] w = Some w' /\
    promise_state p w' = Some Pending /\
    connectionPromise w' = None /\
    socket w' = None /\
    readyState_of s w' = Some CLOSING /\
    (exists w1, step handler (SocketError s) w' = Some w1 /\
                promise_state p w1 = Some Rejected) /\
    (exists w2, step handler (SocketClose s) w' = Some w2 /\
                promise_state p w2 = Some Pending /\
                step handler (SocketOpen s) w2 = None /\
                step handler (SocketError s) w2 = None).
Proof.
  intros Hnot Hidle Hok s p.
  destruct (connect_idle w Hnot Hidle Hok)
    as (w1 & E & Hs1 & Hp1 & _ & Hso1 & _).
  assert (Hsk1 : sockets w1 !! s = Some (new_socket (url w) p)).
  { rewrite Hs1. now apply list_lookup_middle. }
  set (sk := {| sk_url := url w; sk_readyState := CLOSING; sk_promise := p;
                sk_sent := []; sk_close_fired := false |}).
  assert (Hs' : sockets (disconnect w1) = <[s := sk]> (sockets w1)).
  { unfold disconnect, socket_close. rewrite Hso1. fold s. rewrite Hsk1. reflexivity. }
  assert (Hsk' : sockets (disconnect w1) !! s = Some sk).
  { rewrite Hs'. apply list_lookup_insert_eq. now apply lookup_lt_Some in Hsk1. }
  assert (Hpp : promises (disconnect w1) !! p =
                Some {| p_state := Pending; p_catchers := 0 |}).
  { rewrite disconnect_promises, Hp1. now apply list_lookup_middle. }
  destruct (disconnect_fields w1) as (Hso' & _ & Hcp').
  exists (disconnect w1). cbn [run].
  change (step handler (Call AConnect) w) with (Some (fst (connect w))).
  rewrite E. cbn [fst].
  change (step handler (Call ADisconnect) w1) with (Some (disconnect w1)).
  split; [reflexivity|]. split.
  { unfold promise_state. now rewrite Hpp. }
  split; [exact Hcp'|]. split; [exact Hso'|]. split.
  { unfold readyState_of. now rewrite Hsk'. }
  split.
  - eexists. split.
    + cbn [step]. rewrite Hsk'. cbn. reflexivity.
    + exact (onerror_settles s p 0%nat (disconnect w1) Hpp).
  - destruct (close_event s sk (disconnect w1) Hsk' eq_refl)
      as (w2 & E2 & Hs2 & _ & _ & Hp2 & _).
    assert (Hsk2 : sockets w2 !! s = Some (moved CLOSED true sk)).
    { rewrite Hs2. apply list_lookup_insert_eq. now apply lookup_lt_Some in Hsk'. }
    exists w2. split; [exact E2|]. split.
    { unfold promise_state. now rewrite Hp2, Hpp. }
    split; cbn [step]; rewrite Hsk2; reflexivity.
Qed.

End More.

(** * Dispatch, connect and disconnect, in full *)

Section Whole.

Context {host : Host}.

Variable handler : nat -> JS.Value -> World -> list action.

(** ** The pass, call by call *)

Lemma after_cons (m : JS.Value) (g : nat) (pre : list nat) (w : World) :
  after handler m (g :: pre) w =
  after handler m pre (fst (run_actions (handler g m w) w)).
Proof. reflexivity. Qed.

Lemma all_return_cons (m : JS.Value) (g : nat) (pre : list nat) (w : World) :
  all_return handler m (g :: pre) w ->
  throws handler m g w = false /\
  all_return handler m pre (fst (run_actions (handler g m w) w)).
Proof.
  intros Hall. split.
  - exact (Hall 0%nat g eq_refl).
  - intros i g' Hi. exact (Hall (S i) g' Hi).
Qed.

(** No handler throws: the pass calls them all. *)
Lemma forEach_all_return (hs : list nat) (m : JS.Value) (w : World) :
  all_return handler m hs w ->
  called (forEach handler hs m w) = hs /\
  pass_threw (forEach handler hs m w) = false /\
  pass_world (forEach handler hs m w) = after handler m hs w.
Proof.
  unfold called. revert w. induction hs as [|g hs IH]; intros w Hall.
  - repeat split.
  - apply all_return_cons in Hall as [Hg Hrest]. unfold throws in Hg.
    rewrite after_cons. cbn [forEach].
    destruct (run_actions (handler g m w) w) as [w1 threw]. cbn in Hg, Hrest |- *.
    subst threw. destruct (IH w1 Hrest) as (Hc & Ht & Hw).
    cbn. rewrite Hc. repeat split; assumption.
Qed.

(** A first handler throws: the pass ends with its call. *)
Lemma forEach_first_throw (pre post : list nat) (h : nat) (m : JS.Value)
    (w : World) :
  all_return handler m pre w ->
  throws handler m h (after handler m pre w) = true ->
  called (forEach handler (pre ++ h :: post) m w) = pre ++ [h] /\
  pass_threw (forEach handler (pre ++ h :: post) m w) = true /\
  pass_world (forEach handler (pre ++ h :: post) m w) =
    fst (run_actions (handler h m (after handler m pre w)) (after handler m pre w)).
Proof.
  unfold called. revert w. induction pre as [|g pre IH]; intros w Hall Hthrow.
  - unfold throws in Hthrow. cbn in Hthrow |- *.
    destruct (run_actions (handler h m w) w) as [w1 threw]. cbn in Hthrow |- *.
    subst threw. repeat split.
  - apply all_return_cons in Hall as [Hg Hrest]. unfold throws in Hg.
    rewrite after_cons in *. cbn [app forEach].
    destruct (run_actions (handler g m w) w) as [w1 threw]. cbn in Hg, Hrest, Hthrow |- *.
    subst threw. destruct (IH w1 Hrest Hthrow) as (Hc & Ht & Hw).
    cbn. rewrite Hc. repeat split; assumption.
Qed.

(** What each call of the pass saw. *)
Lemma forEach_invoked (hs : list nat) (m : JS.Value) (w : World) (i : nat)
    (inv : Invocation) :
  pass_invoked (forEach handler hs m w) !! i = Some inv ->
  hs !! i = Some (inv_handler inv) /\
  inv_registry inv = messageHandlers (after handler m (take i hs) w).
Proof.
  revert w i. induction hs as [|g hs IH]; intros w i Hi; [discriminate|].
  cbn [forEach] in Hi.
  destruct (run_actions (handler g m w) w) as [w1 threw] eqn:Hrun.
  destruct i as [|i].
  - assert (inv = {| inv_handler := g; inv_registry := messageHandlers w |})
      as -> by (destruct threw; cbn in Hi; congruence).
    split; reflexivity.
  - destruct threw; cbn in Hi; [discriminate|].
    destruct (IH w1 i Hi) as [Hh Hr]. split; [exact Hh|].
    cbn [take]. rewrite after_cons, Hrun. exact Hr.
Qed.

(** Either every handler returns, or there is a first one that throws. *)
Lemma first_throw_or_none (hs : list nat) (m : JS.Value) (w : World) :
  all_return handler m hs w \/
  exists pre h post,
    hs = pre ++ h :: post /\
    all_return handler m pre w /\
    throws handler m h (after handler m pre w) = true.
Proof.
  revert w. induction hs as [|g hs IH]; intros w.
  - left. intros i g Hi. discriminate.
  - destruct (throws handler m g w) eqn:Hg.
    + right. exists [], g, hs. repeat split; [|exact Hg].
      intros i g' Hi. discriminate.
    + destruct (IH (fst (run_actions (handler g m w) w))) as [Hall|Hthrow].
      * left. intros [|i] g' Hi.
        -- injection Hi as <-. exact Hg.
        -- exact (Hall i g' Hi).
      * right. destruct Hthrow as (pre & h & post & -> & Hall & Ht).
        exists (g :: pre), h, post. repeat split; [|exact Ht].
        intros [|i] g' Hi.
        -- injection Hi as <-. exact Hg.
        -- exact (Hall i g' Hi).
Qed.

(** C6, as the code has it. A pass runs over the registry it starts with.
    When every handler returns, it calls each registration once, in
    registration order, and ends without a throw in the world the calls
    leave. When a handler throws in its turn, the pass calls the
    registrations before it and the thrower, in order, and ends there with
    the throw: the registrations after it are not called. One of the two is
    the case. This holds whatever the handlers do to the registry: each
    call sees the registry as the calls before it left it, and the pass
    still takes its handlers from the registry it started with, so a
    handler removed before its turn is called all the same. A removed
    handler is out of the registry (the other handlers stay), and a pass
    never calls a handler that is not in the registry it starts with. *)
Theorem dispatch_calls_the_starting_registry_up_to_a_throw
    (m : JS.Value) (w : World) :
  let r := notifyHandlers handler m w in
  (all_return handler m (messageHandlers w) w ->
   called r = messageHandlers w /\
   pass_threw r = false /\
   pass_world r = after handler m (messageHandlers w) w) /\
  (forall pre h post,
     messageHandlers w = pre ++ h :: post ->
     all_return handler m pre w ->
     throws handler m h (after handler m pre w) = true ->
     called r = pre ++ [h] /\
     pass_threw r = true /\
     pass_world r =
       fst (run_actions (handler h m (after handler m pre w))
              (after handler m pre w))) /\
  (all_return handler m (messageHandlers w) w \/
   exists pre h post,
     messageHandlers w = pre ++ h :: post /\
     all_return handler m pre w /\
     throws handler m h (after handler m pre w) = true) /\
  (forall i inv, pass_invoked r !! i = Some inv ->
     messageHandlers w !! i = Some (inv_handler inv) /\
     inv_registry inv =
       messageHandlers (after handler m (take i (messageHandlers w)) w)) /\
  (forall h, h ∉ messageHandlers w -> h ∉ called r) /\
  (forall h v, (h ∉ messageHandlers (unregister h v)) /\
     forall g, g <> h ->
       (g ∈ messageHandlers (unregister h v) <-> g ∈ messageHandlers v)).
Proof.
  cbv zeta. unfold notifyHandlers.
  split; [apply forEach_all_return|].
  split.
  { intros pre h post -> Hall Ht. now apply forEach_first_throw. }
  split; [apply first_throw_or_none|].
  split; [apply forEach_invoked|].
  split.
  - intros h Hnot Hin. apply Hnot.
    destruct (forEach_called handler (messageHandlers w) m w) as [[k Hk] _].
    rewrite Hk. apply elem_of_app. now left.
  - apply (unregister_removes handler).
Qed.

(** ** Calls of [connect] in a row *)

(** C2, as the code has it. Any number [n >= 1] of [connect()] calls made
    one after the other, with no other task between them, while no
    connection is open, are handed one and the same promise. With no outcome
    pending and a URL the browser takes, the first call makes the one
    transport there is after every prefix of the calls, the promise is
    pending, the open event of that transport fulfils it and its error event
    rejects it; the calls add that one attempt to the attempts in flight, so
    that exactly one is in flight when none was before. With an outcome
    already pending the calls make no transport and are handed that outcome.
    With a URL the browser refuses they make no transport and are handed one
    rejected promise. *)
Theorem connects_in_a_row_share_one_outcome (n : nat) (w : World) :
  (1 <= n)%nat ->
  isConnected w = false ->
  (connectionPromise w = None -> WebSocket_accepts (url w) = true ->
   let p := length (promises w) in
   let s := length (sockets w) in
   exists w',
     connect_n n w = (w', replicate n (Waits p)) /\
     (forall k, (1 <= k <= n)%nat ->
        sockets (fst (connect_n k w)) = sockets w ++ [new_socket (url w) p] /\
        in_flight (fst (connect_n k w)) = in_flight w ++ [new_socket (url w) p] /\
        (in_flight w = [] ->
         in_flight (fst (connect_n k w)) = [new_socket (url w) p])) /\
     promise_state p w' = Some Pending /\
     (exists w1, step handler (SocketOpen s) w' = Some w1 /\
                 promise_state p w1 = Some Fulfilled) /\
     (exists w2, step handler (SocketError s) w' = Some w2 /\
                 promise_state p w2 = Some Rejected)) /\
  (forall p, connectionPromise w = Some p ->
   exists w',
     connect_n n w = (w', replicate n (Waits p)) /\
     sockets w' = sockets w /\
     promises w' = promises w /\
     connectionPromise w' = Some p) /\
  (connectionPromise w = None -> WebSocket_accepts (url w) = false ->
   exists w',
     connect_n n w = (w', replicate n (Waits (length (promises w)))) /\
     sockets w' = sockets w /\
     promise_state (length (promises w)) w' = Some Rejected).
Proof.
  intros Hn Hnot. split; [|split].
  - intros Hidle Hok p s.
    destruct (connects_in_a_row_make_one_transport handler n w Hnot Hidle Hok Hn)
      as (w' & E & Hone & Hp & Hopen & Herr).
    exists w'. split; [exact E|]. split; [|auto].
    intros k Hk. destruct (Hone k Hk) as [Hs Hf].
    split; [exact Hs|]. split; [exact Hf|].
    intros Hnone. now rewrite Hf, Hnone.
  - intros p Hp.
    destruct (connect_n_in_progress n p w Hnot Hp) as (w' & E & Hs & Hps & Hcp & _).
    exists w'. auto.
  - intros Hidle Hbad. exact (connect_n_refused_url n w Hnot Hidle Hbad Hn).
Qed.

(** ** After [disconnect], both ways *)

Lemma open_event_any (s : nat) (sk : Socket) (w : World) :
  sockets w !! s = Some sk ->
  sk_readyState sk = CONNECTING ->
  exists w',
    step handler (SocketOpen s) w = Some w' /\
    sockets w' = <[s := moved OPEN false sk]> (sockets w) /\
    socket w' = socket w /\
    reconnectAttempts w' = 0 /\
    connectionPromise w' = None /\
    timers w' = timers w /\
    url w' = url w.
Proof.
  intros Hsk Hr. cbn [step]. rewrite Hsk.
  destruct (Z.eqb_spec (sk_readyState sk) CONNECTING); [|contradiction].
  eexists. split; [reflexivity|]. unfold onopen.
  match goal with |- context [resolve ?p ?v] =>
    destruct (resolve_service p v) as (-> & -> & _ & -> & -> & -> & -> & _) end.
  unfold set_readyState. rewrite Hsk. cbn. repeat split.
Qed.

Lemma reject_length (p : nat) (w : World) :
  length (promises (reject p w)) = length (promises w).
Proof.
  unfold reject. destruct (promises w !! p) as [[[] c]|]; try reflexivity.
  match goal with |- context [say_n c ?l ?t ?v] =>
    destruct (say_n_fields c l t v) as (_ & _ & _ & _ & _ & _ & -> & _) end.
  cbn. apply length_insert.
Qed.

Lemma resolve_length (p : nat) (w : World) :
  length (promises (resolve p w)) = length (promises w).
Proof.
  unfold resolve. destruct (promises w !! p) as [[[] c]|]; try reflexivity.
  cbn. apply length_insert.
Qed.

(** The close or error event of any transport, then [connect()] with a URL
    the browser takes: the stored outcome is gone and a transport is
    made. *)
Lemma close_or_error_then_connect (s : nat) (sk : Socket) (e : event) (w : World) :
  sockets w !! s = Some sk ->
  sk_close_fired sk = false ->
  e = SocketClose s \/ e = SocketError s ->
  WebSocket_accepts (url w) = true ->
  exists v w2,
    step handler e w = Some v /\
    connectionPromise v = None /\
    connect v = (w2, Waits (length (promises w))) /\
    transports_made w2 = S (transports_made w) /\
    promise_state (length (promises w)) w2 = Some Pending.
Proof.
  intros Hsk Hf He Hok.
  assert (Hv : exists v, step handler e w = Some v /\
                         sockets v = <[s := moved CLOSED (if e is SocketClose _ then true else false) sk]> (sockets w) /\
                         socket v = None /\ connectionPromise v = None /\
                         url v = url w /\
                         length (promises v) = length (promises w)).
  { destruct He as [-> | ->].
    - destruct (close_event handler s sk w Hsk Hf)
        as (v & E & Hs & Hso & Hcp & Hps & _ & Hu & _).
      exists v. rewrite Hps. auto 10.
    - destruct (error_event handler s sk w Hsk Hf)
        as (v & E & Hs & Hso & Hcp & _ & _ & _ & Hu).
      exists v. repeat (split; [assumption|]).
      revert E. cbn [step]. rewrite Hsk, Hf. intros [= <-].
      unfold onerror. rewrite reject_length. unfold set_readyState.
      rewrite Hsk. reflexivity. }
  destruct Hv as (v & E & Hs & Hso & Hcp & Hu & Hlen).
  assert (Hn : isConnected v = false).
  { unfold isConnected. now rewrite Hso. }
  rewrite <- Hu in Hok.
  destruct (connect_idle v Hn Hcp Hok) as (w2 & E2 & Hs2 & Hps2 & _).
  rewrite Hlen in *.
  exists v, w2. split; [exact E|]. split; [exact Hcp|]. split; [exact E2|]. split.
  - unfold transports_made. rewrite Hs2, length_app, Hs, length_insert. cbn. lia.
  - unfold promise_state. rewrite Hps2, <- Hlen.
    now rewrite list_lookup_middle by reflexivity.
Qed.

(** X2. When [new WebSocket(url)] throws, [connect()] makes no transport and
    hands out a rejected promise, and that promise is stored as the pending
    outcome: the [connect()] calls that follow with no other task in
    between, also after [setUrl] has put a good URL in place, are handed the
    same rejected promise and make no transport. [disconnect()] clears the
    stored outcome, and so does the close or error event of any transport
    left from before: the next [connect()] with a URL the browser takes then
    makes a transport and a fresh pending promise. The open event of a
    transport left from before clears it as well. *)
Theorem refused_url_sticks_until_disconnect (w : World) :
  isConnected w = false ->
  connectionPromise w = None ->
  WebSocket_accepts (url w) = false ->
  let p := length (promises w) in
  let w1 := fst (connect w) in
  snd (connect w) = Waits p /\
  promise_state p w1 = Some Rejected /\
  sockets w1 = sockets w /\
  connectionPromise w1 = Some p /\
  (forall u n, exists w',
     connect_n n (setUrl u w1) = (w', replicate n (Waits p)) /\
     sockets w' = sockets w /\
     connectionPromise w' = Some p /\
     promise_state p w' = Some Rejected) /\
  (forall u, WebSocket_accepts u = true ->
     exists w2,
       connect (setUrl u (disconnect w1)) = (w2, Waits (S p)) /\
       transports_made w2 = S (transports_made w) /\
       promise_state (S p) w2 = Some Pending) /\
  (forall s sk e u,
     sockets w !! s = Some sk ->
     sk_close_fired sk = false ->
     e = SocketClose s \/ e = SocketError s ->
     WebSocket_accepts u = true ->
     exists v w2,
       step handler e (setUrl u w1) = Some v /\
       connectionPromise v = None /\
       connect v = (w2, Waits (S p)) /\
       transports_made w2 = S (transports_made w) /\
       promise_state (S p) w2 = Some Pending) /\
  (forall s sk u,
     sockets w !! s = Some sk ->
     sk_readyState sk = CONNECTING ->
     exists v,
       step handler (SocketOpen s) (setUrl u w1) = Some v /\
       connectionPromise v = None).
Proof.
  intros Hnot Hidle Hbad p w1.
  destruct (connect_refused w Hnot Hidle Hbad)
    as (v & E & Hs & Hps & Hcp & Hso & Ht).
  subst w1. rewrite E. cbn [fst snd].
  assert (Hrej : promise_state p v = Some Rejected).
  { unfold promise_state. rewrite Hps. now rewrite list_lookup_middle by reflexivity. }
  assert (Hnotv : isConnected v = false).
  { unfold isConnected, readyState_of in *. now rewrite Hso, Hs. }
  assert (Hlen : length (promises v) = S p).
  { rewrite Hps, length_app. cbn. subst p. lia. }
  split; [reflexivity|]. split; [exact Hrej|]. split; [exact Hs|].
  split; [exact Hcp|]. split; [|split; [|split]].
  - intros u n.
    destruct (connect_n_in_progress n p (setUrl u v) Hnotv Hcp)
      as (w' & En & Hs' & Hps' & Hcp' & _).
    exists w'. split; [exact En|]. split; [now rewrite Hs'|].
    split; [exact Hcp'|].
    unfold promise_state in *. now rewrite Hps'.
  - intros u Hok.
    destruct (disconnected_is_idle v) as [Hn Hi].
    destruct (connect_idle (setUrl u (disconnect v)) Hn Hi Hok)
      as (w2 & E2 & Hs2 & Hps2 & _).
    assert (Hlen' : length (promises (setUrl u (disconnect v))) = S p).
    { change (length (promises (disconnect v)) = S p).
      now rewrite disconnect_promises. }
    rewrite Hlen' in *. exists w2. split; [exact E2|]. split.
    + unfold transports_made. rewrite Hs2, length_app.
      change (sockets (setUrl u (disconnect v))) with (sockets (disconnect v)).
      destruct (disconnect_keeps v) as (_ & _ & Hl). rewrite Hl, Hs. cbn. lia.
    + unfold promise_state. rewrite Hps2, <- Hlen'.
      now rewrite list_lookup_middle by reflexivity.
  - intros s sk e u Hsk Hf He Hok.
    assert (Hsk' : sockets (setUrl u v) !! s = Some sk).
    { change (sockets v !! s = Some sk). now rewrite Hs. }
    destruct (close_or_error_then_connect s sk e (setUrl u v) Hsk' Hf He Hok)
      as (v' & w2 & E1 & Hc & E2 & Hm & Hp).
    change (length (promises (setUrl u v))) with (length (promises v)) in *.
    rewrite Hlen in *.
    exists v', w2. split; [exact E1|]. split; [exact Hc|]. split; [exact E2|].
    split; [|exact Hp].
    rewrite Hm. unfold transports_made.
    change (sockets (setUrl u v)) with (sockets v). now rewrite Hs.
  - intros s sk u Hsk Hr.
    assert (Hsk' : sockets (setUrl u v) !! s = Some sk).
    { change (sockets v !! s = Some sk). now rewrite Hs. }
    destruct (open_event_any s sk (setUrl u v) Hsk' Hr) as (v' & E1 & _ & _ & _ & Hc & _).
    exists v'. split; [exact E1|exact Hc].
Qed.

(** A pending timer makes a transport when it runs out on an idle
    service. *)
Lemma pending_timer_reconnects (t : nat) (tm : Timer) (v : World) :
  timers v !! t = Some tm ->
  tm_pending tm = true ->
  socket v = None ->
  connectionPromise v = None ->
  WebSocket_accepts (url v) = true ->
  exists w',
    run handler [TimerFires t] v = Some w' /\
    transports_made w' = S (transports_made v).
Proof.
  intros Htm Hp Hso Hcp Hok.
  assert (Hnot : isConnected v = false) by (unfold isConnected; now rewrite Hso).
  destruct (timer_event handler t tm v Htm Hp Hnot Hcp Hok) as (w' & E & Hs & _).
  exists w'. cbn [run]. rewrite E. split; [reflexivity|].
  unfold transports_made. rewrite Hs, length_app. cbn. lia.
Qed.

(** A transport whose close event is still to come reconnects, with the
    counter below the ceiling. *)
Lemma unfired_transport_reconnects (s : nat) (sk : Socket) (v : World) :
  sockets v !! s = Some sk ->
  sk_close_fired sk = false ->
  reconnectAttempts v < maxReconnectAttempts ->
  WebSocket_accepts (url v) = true ->
  exists w',
    run handler [SocketClose s; TimerFires (length (timers v))] v = Some w' /\
    transports_made w' = S (transports_made v).
Proof.
  intros Hsk Hf Hlt Hok.
  destruct (close_event handler s sk v Hsk Hf)
    as (w1 & E1 & Hs1 & Hso1 & Hcp1 & _ & _ & Hu1 & Hbelow & _).
  destruct (Hbelow Hlt) as [_ Ht1].
  assert (Htm : timers w1 !! length (timers v) =
                Some {| tm_delay := reconnectDelay * (reconnectAttempts v + 1);
                        tm_pending := true |}).
  { rewrite Ht1. now apply list_lookup_middle. }
  assert (Hok1 : WebSocket_accepts (url w1) = true) by now rewrite Hu1.
  destruct (pending_timer_reconnects _ _ w1 Htm eq_refl Hso1 Hcp1 Hok1)
    as (w' & E2 & Hm).
  exists w'. cbn [run] in *. rewrite E1. split; [exact E2|].
  rewrite Hm. unfold transports_made. now rewrite Hs1, length_insert.
Qed.

(** A transport that is connecting reconnects when it opens and then
    drops, whatever the counter was. *)
Lemma connecting_transport_reconnects (s : nat) (sk : Socket) (v : World) :
  sockets v !! s = Some sk ->
  sk_close_fired sk = false ->
  sk_readyState sk = CONNECTING ->
  WebSocket_accepts (url v) = true ->
  exists w',
    run handler [SocketOpen s; SocketClose s; TimerFires (length (timers v))] v
      = Some w' /\
    transports_made w' = S (transports_made v).
Proof.
  intros Hsk Hf Hr Hok.
  destruct (open_event_any s sk v Hsk Hr)
    as (w0 & E0 & Hs0 & _ & Ha0 & _ & Ht0 & Hu0).
  assert (Hsk0 : sockets w0 !! s = Some (moved OPEN false sk)).
  { rewrite Hs0. apply list_lookup_insert_eq. now apply lookup_lt_Some in Hsk. }
  assert (Hlt0 : reconnectAttempts w0 < maxReconnectAttempts)
    by (rewrite Ha0; reflexivity).
  assert (Hok0 : WebSocket_accepts (url w0) = true) by now rewrite Hu0.
  destruct (unfired_transport_reconnects s _ w0 Hsk0 Hf Hlt0 Hok0) as (w' & E & Hm).
  exists w'. cbn [run] in *. rewrite E0. rewrite Ht0 in E. split; [exact E|].
  rewrite Hm. unfold transports_made. now rewrite Hs0, length_insert.
Qed.

Lemma Forall_or_counterexample {A} (P : A -> Prop) (l : list A) :
  (forall x, P x \/ ~ P x) ->
  Forall P l \/ exists i x, l !! i = Some x /\ ~ P x.
Proof.
  intros Hdec. induction l as [|x l IH].
  - left. constructor.
  - destruct (Hdec x) as [Hx|Hx].
    + destruct IH as [Hl|(i & y & Hi & Hy)].
      * left. now constructor.
      * right. now exists (S i), y.
    + right. now exists 0%nat, x.
Qed.

Lemma spent_or_not (a : Z) (sk : Socket) : spent a sk \/ ~ spent a sk.
Proof.
  unfold spent.
  destruct (sk_close_fired sk);
    destruct (Z.eq_dec (sk_readyState sk) CLOSED);
    destruct (Z_le_dec maxReconnectAttempts a);
    destruct (Z.eq_dec (sk_readyState sk) CONNECTING);
    try (left; tauto); right; intros [[? ?]|[? ?]]; try tauto; discriminate.
Qed.

(** An idle service that is not settled can make a transport by open
    events, close events and timer callbacks alone. *)
Lemma unsettled_reconnects (v : World) :
  socket v = None ->
  connectionPromise v = None ->
  tidy v ->
  WebSocket_accepts (url v) = true ->
  ~ settled v ->
  exists es w',
    Forall open_close_or_timer es /\
    run handler es v = Some w' /\
    transports_made w' = S (transports_made v).
Proof.
  intros Hso Hcp Htidy Hok Hnot.
  destruct (Forall_or_counterexample (fun tm => tm_pending tm = false) (timers v))
    as [Hts|(t & tm & Htm & Hp)].
  { intros tm. destruct (tm_pending tm); [right; discriminate|left; reflexivity]. }
  2:{ apply not_false_is_true in Hp.
      destruct (pending_timer_reconnects t tm v Htm Hp Hso Hcp Hok) as (w' & E & Hm).
      exists [TimerFires t], w'. split; [|split; assumption].
      repeat constructor. }
  destruct (Forall_or_counterexample (spent (reconnectAttempts v)) (sockets v)
              (spent_or_not (reconnectAttempts v)))
    as [Hss|(s & sk & Hsk & Hn)].
  { exfalso. apply Hnot. now split. }
  assert (Hf : sk_close_fired sk = false).
  { destruct (sk_close_fired sk) eqn:Hf; [|reflexivity]. exfalso. apply Hn. left.
    split; [exact Hf|]. exact (Forall_lookup_1 _ _ _ _ Htidy Hsk Hf). }
  destruct (Z.lt_ge_cases (reconnectAttempts v) maxReconnectAttempts) as [Hlt|Hge].
  - destruct (unfired_transport_reconnects s sk v Hsk Hf Hlt Hok) as (w' & E & Hm).
    eexists _, w'. split; [|split; eassumption].
    repeat constructor.
  - destruct (Z.eq_dec (sk_readyState sk) CONNECTING) as [Hr|Hr].
    + destruct (connecting_transport_reconnects s sk v Hsk Hf Hr Hok) as (w' & E & Hm).
      eexists _, w'. split; [|split; eassumption].
      repeat constructor.
    + exfalso. apply Hn. right. split; assumption.
Qed.

(** *** Delivered close events leave closed transports *)

Lemma tidy_insert (s : nat) (sk sk' : Socket) (sks : list Socket) :
  Forall (fun k => sk_close_fired k = true -> sk_readyState k = CLOSED) sks ->
  sks !! s = Some sk ->
  ((sk_close_fired sk = true -> sk_readyState sk = CLOSED) ->
   sk_close_fired sk' = true -> sk_readyState sk' = CLOSED) ->
  Forall (fun k => sk_close_fired k = true -> sk_readyState k = CLOSED)
         (<[s := sk']> sks).
Proof.
  intros Hall Hsk Himp. apply Forall_insert; [exact Hall|].
  apply Himp. exact (Forall_lookup_1 _ _ _ _ Hall Hsk).
Qed.

Lemma disconnect_tidy (w : World) : tidy w -> tidy (disconnect w).
Proof.
  unfold tidy, disconnect, socket_close. intros Hall.
  destruct (socket w) as [s|]; [|exact Hall].
  destruct (sockets w !! s) as [sk|] eqn:Hsk; [|exact Hall]. cbn.
  eapply tidy_insert; [exact Hall|exact Hsk|]. cbn. intros Hsk' Hf.
  rewrite (Hsk' Hf). reflexivity.
Qed.

Lemma send_tidy (m : JS.Value) (w : World) : tidy w -> tidy (send m w).
Proof.
  unfold tidy, send, socket_send. intros Hall.
  destruct (isConnected w); [|exact Hall].
  destruct (socket w) as [s|]; [|exact Hall].
  destruct (sockets w !! s) as [sk|] eqn:Hsk; [|exact Hall]. cbn.
  eapply tidy_insert; [exact Hall|exact Hsk|]. cbn. auto.
Qed.

Lemma connect_sockets (w : World) :
  sockets (fst (connect w)) = sockets w \/
  sockets (fst (connect w)) =
    sockets w ++ [new_socket (url w) (length (promises w))].
Proof.
  unfold connect. destruct (isConnected w); [now left|].
  destruct (connectionPromise w); [now left|].
  cbn. unfold connect_executor. cbn.
  destruct (WebSocket_accepts (url w)); [now right|]. left.
  match goal with |- context [reject ?p ?v] =>
    now destruct (reject_service p v) as (_ & _ & _ & _ & _ & -> & _) end.
Qed.

Lemma connect_tidy (w : World) : tidy w -> tidy (fst (connect w)).
Proof.
  unfold tidy. intros Hall. destruct (connect_sockets w) as [->| ->]; [exact Hall|].
  apply Forall_app. split; [exact Hall|]. repeat constructor. discriminate.
Qed.

Lemma run_action_tidy (a : action) (w : World) :
  tidy w -> tidy (fst (run_action a w)).
Proof.
  intros Ht. destruct a; cbn [run_action fst]; try exact Ht.
  - now apply connect_tidy.
  - now apply disconnect_tidy.
  - now apply send_tidy.
Qed.

Lemma step_tidy (e : event) (w w' : World) :
  tidy w -> step handler e w = Some w' -> tidy w'.
Proof.
  intros Ht Hstep. destruct e as [a|s|s data|s|s|t].
  - cbn in Hstep. injection Hstep as <-. now apply run_action_tidy.
  - destruct (step_SocketOpen handler s w w' Hstep) as (sk & Hsk & Hr & _).
    destruct (open_event_any s sk w Hsk Hr) as (v & E & Hs & _).
    rewrite E in Hstep. injection Hstep as <-. unfold tidy. rewrite Hs.
    eapply tidy_insert; [exact Ht|exact Hsk|]. cbn. intros Hsk' Hf.
    rewrite (Hsk' Hf) in Hr. discriminate.
  - cbn in Hstep. destruct (sockets w !! s) as [sk|]; [|discriminate].
    destruct (sk_readyState sk =? OPEN); [|discriminate].
    injection Hstep as <-. revert Ht.
    apply (onmessage_keeps handler (fun v v' => tidy v -> tidy v') (fun _ => True));
      auto.
    + intros a v _. apply run_action_tidy.
    + intros h m v. apply Forall_forall. auto.
  - destruct (step_close_or_error handler s w w' (or_intror Hstep)) as (sk & Hsk & Hf).
    destruct (error_event handler s sk w Hsk Hf) as (v & E & Hs & _).
    rewrite E in Hstep. injection Hstep as <-. unfold tidy. rewrite Hs.
    eapply tidy_insert; [exact Ht|exact Hsk|]. cbn. auto.
  - destruct (step_close_or_error handler s w w' (or_introl Hstep)) as (sk & Hsk & Hf).
    destruct (close_event handler s sk w Hsk Hf) as (v & E & Hs & _).
    rewrite E in Hstep. injection Hstep as <-. unfold tidy. rewrite Hs.
    eapply tidy_insert; [exact Ht|exact Hsk|]. cbn. auto.
  - cbn in Hstep. destruct (timers w !! t) as [tm|]; [|discriminate].
    destruct (tm_pending tm); [|discriminate]. injection Hstep as <-.
    unfold reconnect_callback.
    match goal with |- context [connect ?v] =>
      pose proof (connect_tidy v Ht) as Hc; destruct (connect v) as [v1 o] end.
    cbn in Hc. unfold tidy. now destruct (attach_catch_keeps o v1) as [_ ->].
Qed.

Lemma run_tidy (es : list event) (w w' : World) :
  tidy w -> run handler es w = Some w' -> tidy w'.
Proof.
  revert w. induction es as [|e es IH]; intros w Ht Hrun; cbn in Hrun.
  - now injection Hrun as <-.
  - destruct (step handler e w) as [w1|] eqn:Hstep; [|discriminate].
    exact (IH w1 (step_tidy e w w1 Ht Hstep) Hrun).
Qed.

Lemma disconnect_closes (s : nat) (sk : Socket) (w : World) :
  socket w = Some s ->
  sockets w !! s = Some sk ->
  sockets (disconnect w) =
    <[s := moved (if (sk_readyState sk =? CLOSING) || (sk_readyState sk =? CLOSED)
                  then sk_readyState sk else CLOSING) false sk]> (sockets w).
Proof.
  intros Hs Hsk. unfold disconnect, socket_close. rewrite Hs, Hsk. reflexivity.
Qed.

(** C1, as the code has it. [disconnect()] closes the current transport (a
    connecting or open one goes to [CLOSING], the other transports are left
    alone) and clears the transport reference, the listeners and the pending
    outcome; it makes no transport and sets no timer, and it leaves the
    timers as they are: it cancels none. The close event of a transport,
    also of the one [disconnect()] closed, sets a reconnection timer when it
    finds the counter below 5. After [disconnect()], with handlers that do
    not call [connect()]: if no timer is pending and every transport is
    spent, no run of tasks without a [connect()] by client code makes a
    transport; and if that is not so, and the browser takes the URL, some
    run of open events, close events and timer callbacks alone does make
    one. (The second half is for worlds in which delivered close events
    have left closed transports, as all worlds are that the service reaches
    from its start.) *)
Theorem disconnect_stops_exactly_a_settled_service :
  (forall w,
     (forall s sk, socket w = Some s -> sockets w !! s = Some sk ->
        sockets (disconnect w) =
          <[s := moved (if (sk_readyState sk =? CLOSING) || (sk_readyState sk =? CLOSED)
                        then sk_readyState sk else CLOSING) false sk]> (sockets w)) /\
     (socket w = None -> sockets (disconnect w) = sockets w) /\
     timers (disconnect w) = timers w /\
     transports_made (disconnect w) = transports_made w /\
     socket (disconnect w) = None /\
     messageHandlers (disconnect w) = [] /\
     connectionPromise (disconnect w) = None) /\
  (forall s w w',
     step handler (SocketClose s) w = Some w' ->
     reconnectAttempts w < 5 ->
     timers w' = timers w ++ [{| tm_delay := 1000 * (reconnectAttempts w + 1);
                                 tm_pending := true |}]) /\
  ((forall h m v, Forall no_connect (handler h m v)) ->
   forall es w w',
     settled (disconnect w) ->
     Forall (fun e => e <> Call AConnect) es ->
     run handler es (disconnect w) = Some w' ->
     transports_made w' = transports_made (disconnect w) /\ settled w') /\
  (forall w,
     tidy w ->
     WebSocket_accepts (url w) = true ->
     ~ settled (disconnect w) ->
     exists es w',
       Forall open_close_or_timer es /\
       run handler es (disconnect w) = Some w' /\
       transports_made w' = S (transports_made (disconnect w))) /\
  (forall es w, run handler es initial = Some w -> tidy w).
Proof.
  split; [|split; [|split; [|split]]].
  - intros w. destruct (disconnect_keeps w) as (Ht & _ & Hl).
    destruct (disconnect_fields w) as (Hs & Hh & Hp). unfold transports_made.
    split; [intros s sk; apply disconnect_closes|].
    split; [|auto].
    intros Hnone. unfold disconnect. now rewrite Hnone.
  - intros s w w' Hstep Hlt.
    destruct (step_close_or_error handler s w w' (or_introl Hstep)) as (sk & Hsk & Hf).
    destruct (close_event handler s sk w Hsk Hf)
      as (v & E & _ & _ & _ & _ & _ & _ & Hbelow & _).
    rewrite E in Hstep. injection Hstep as <-. now destruct (Hbelow Hlt).
  - intros Hnc es w w' Hset Hes Hrun.
    destruct (run_stays_settled handler Hnc es _ w' Hes Hrun Hset) as [Hset' Hl].
    split; [exact Hl|exact Hset'].
  - intros w Ht Hok Hnot.
    destruct (disconnect_fields w) as (Hs & _ & Hp).
    apply unsettled_reconnects; auto using disconnect_tidy.
    replace (url (disconnect w)) with (url w); [exact Hok|].
    unfold disconnect, socket_close. destruct (socket w) as [s|]; [|reflexivity].
    now destruct (sockets w !! s).
  - intros es w Hrun. apply (run_tidy es initial w); [constructor|exact Hrun].
Qed.

End Whole.

(** * The statements on concrete runs *)

Section Runs.

Local Existing Instance Sample.host.

(** C1, refuted as stated. After connect, open and [disconnect()] there is
    one transport; the close event of that transport and the timer it sets
    then make a second one, with no call of [connect()] by client code. And a
    timer set before [disconnect()] by an unexpected close is still pending
    after it, and makes a transport when it runs out. *)
Lemma reconnects_after_disconnect :
  transports_made <$> run Sample.quiet Sample.session initial = Some 1%nat /\
  transports_made <$>
    run Sample.quiet (Sample.session ++ [SocketClose 0; TimerFires 0]) initial
    = Some 2%nat /\
  transports_made <$>
    run Sample.quiet
      [Call AConnect; SocketOpen 0; SocketClose 0; Call ADisconnect; TimerFires 0]
      initial
    = Some 2%nat.
Proof. repeat split. Qed.

(** C4, refuted as stated. An explicit [connect()] whose transport fails
    before it ever opens (error event, then close event): the close handler
    sets the 1000 ms timer, and the timer makes a second transport. *)
Lemma failed_connect_is_retried :
  timers <$> run Sample.quiet [Call AConnect; SocketError 0; SocketClose 0] initial
    = Some [{| tm_delay := 1000; tm_pending := true |}] /\
  transports_made <$>
    run Sample.quiet [Call AConnect; SocketError 0; SocketClose 0; TimerFires 0] initial
    = Some 2%nat.
Proof. repeat split. Qed.

(** C6, refuted as stated. Handlers 0 and 1 are registered; handler 0
    removes handler 1 during the pass; handler 1 is called all the same, at a
    moment when the registry holds handler 0 alone. *)
Lemma removed_handler_is_still_called :
  pass_invoked
    (notifyHandlers Sample.remover (Editor.content_update "hi")
       (onMessage 1 (onMessage 0 initial)))
  = [{| inv_handler := 0; inv_registry := [0; 1]%nat |};
     {| inv_handler := 1; inv_registry := [0]%nat |}].
Proof. reflexivity. Qed.

(** The same with one handler registered twice that removes itself: it is
    called a second time in the pass, with the registry empty. *)
Lemma self_removing_handler_is_called_twice :
  pass_invoked
    (notifyHandlers Sample.once (Editor.content_update "hi")
       (onMessage 0 (onMessage 0 initial)))
  = [{| inv_handler := 0; inv_registry := [0; 0]%nat |};
     {| inv_handler := 0; inv_registry := [] |}].
Proof. reflexivity. Qed.

(** C6, the part that holds. With handlers 0 and 1 registered and handler
    0 removing handler 1, both return and both are called, in order. With
    handlers 0, 1 and 2 registered and handler 1 throwing, handlers 0 and 1
    are called, handler 2 is not, and the pass reports the throw. *)
Lemma dispatch_calls_the_starting_registry_up_to_a_throw_run :
  (called (notifyHandlers Sample.remover (Editor.content_update "hi")
             (onMessage 1 (onMessage 0 initial))) = [0; 1]%nat /\
   pass_threw (notifyHandlers Sample.remover (Editor.content_update "hi")
                 (onMessage 1 (onMessage 0 initial))) = false) /\
  (called (notifyHandlers Sample.thrower (Editor.content_update "hi")
             (onMessage 2 (onMessage 1 (onMessage 0 initial)))) = [0; 1]%nat /\
   pass_threw (notifyHandlers Sample.thrower (Editor.content_update "hi")
                 (onMessage 2 (onMessage 1 (onMessage 0 initial)))) = true).
Proof.
  split.
  - destruct (dispatch_calls_the_starting_registry_up_to_a_throw
                (host := Sample.host) Sample.remover (Editor.content_update "hi")
                (onMessage 1 (onMessage 0 initial))) as (Hall & _).
    destruct Hall as (Hc & Ht & _).
    + intros i g Hl. destruct i as [|[|i]]; cbn in Hl.
      * injection Hl as <-. reflexivity.
      * injection Hl as <-. reflexivity.
      * discriminate Hl.
    + split; [exact Hc|exact Ht].
  - destruct (dispatch_calls_the_starting_registry_up_to_a_throw
                (host := Sample.host) Sample.thrower (Editor.content_update "hi")
                (onMessage 2 (onMessage 1 (onMessage 0 initial))))
      as (_ & Hthrow & _).
    destruct (Hthrow [0%nat] 1%nat [2%nat]) as (Hc & Ht & _).
    + reflexivity.
    + intros i g Hl. destruct i as [|i]; cbn in Hl.
      * injection Hl as <-. reflexivity.
      * discriminate Hl.
    + reflexivity.
    + split; [exact Hc|exact Ht].
Defined.

(** C8, refuted as stated. The texts of the empty object and of the number
    42 are no envelopes, and the registered handler is called with each. *)
Lemma json_that_is_no_envelope_reaches_the_handlers :
  parses_as_envelope "{}" = false /\
  pass_invoked (onmessage Sample.quiet "{}" (onMessage 0 initial))
  = [{| inv_handler := 0; inv_registry := [0]%nat |}] /\
  parses_as_envelope "42" = false /\
  pass_invoked (onmessage Sample.quiet "42" (onMessage 0 initial))
  = [{| inv_handler := 0; inv_registry := [0]%nat |}].
Proof. repeat split. Qed.

(** A text that is not JSON, on the same registry: dropped. *)
Lemma text_that_is_not_json_is_dropped :
  JSON_parse "not json" = None /\
  pass_invoked (onmessage Sample.quiet "not json" (onMessage 0 initial)) = [].
Proof. split; reflexivity. Qed.

(** C10 on the fresh service after its first [connect()]: the transport is
    connecting and the getter says 3. *)
Lemma readyState_getter_masks_connecting_run :
  readyState_of 0 (fst (connect initial)) = Some 0 /\
  readyState (fst (connect initial)) = 3.
Proof.
  split; [reflexivity|].
  destruct (readyState_getter_masks_connecting (fst (connect initial))) as [_ H].
  destruct (H 0%nat (new_socket "ws://localhost:8080/ws" 0) eq_refl eq_refl) as [H0 _].
  exact (H0 eq_refl).
Defined.

(** C7 on the fresh service, which is not connected. *)
Lemma send_while_not_open_only_warns_run :
  isConnected initial = false /\
  sockets (send (Editor.content_update "hello") initial) = [] /\
  console (send (Editor.content_update "hello") initial) =
    [{| level := LWarn; text := "WebSocket is not connected. Message not sent:" |}].
Proof.
  split; [reflexivity|].
  destruct (send_while_not_open_only_warns (host := Sample.host) (Editor.content_update "hello") initial eq_refl)
    as (_ & Hs & _ & _ & _ & _ & _ & _ & _ & Hc).
  split; [exact Hs|exact Hc].
Defined.

(** C2, refuted as stated. No connection is open and no outcome is
    pending, while the transport of an earlier [connect()] is still
    connecting and its caller still waiting: two more calls in a row make a
    second transport, so that two attempts are in flight, and their callers
    wait for another promise than the earlier caller. *)
Lemma connects_can_leave_two_attempts_in_flight :
  isConnected Sample.orphaned = false /\
  connectionPromise Sample.orphaned = None /\
  map sk_promise (in_flight Sample.orphaned) = [1%nat] /\
  promise_state 1 Sample.orphaned = Some Pending /\
  snd (connect_n 2 Sample.orphaned) = [Waits 2; Waits 2] /\
  map sk_promise (in_flight (fst (connect_n 2 Sample.orphaned))) = [1; 2]%nat.
Proof. repeat split. Qed.

(** C2, the part that holds, with three callers on the fresh service. *)
Lemma connects_in_a_row_share_one_outcome_run :
  exists w',
    connect_n 3 initial = (w', [Waits 0; Waits 0; Waits 0]) /\
    in_flight w' = [new_socket "ws://localhost:8080/ws" 0] /\
    (exists w1, step Sample.quiet (SocketOpen 0) w' = Some w1 /\
                promise_state 0 w1 = Some Fulfilled) /\
    (exists w2, step Sample.quiet (SocketError 0) w' = Some w2 /\
                promise_state 0 w2 = Some Rejected).
Proof.
  destruct (connects_in_a_row_share_one_outcome (host := Sample.host) Sample.quiet
              3 initial (le_S _ _ (le_S _ _ (le_n 1))) eq_refl) as (Hidle & _).
  destruct (Hidle eq_refl eq_refl) as (w' & E & Hone & _ & Hopen & Herr).
  exists w'. split; [exact E|]. split; [|split; [exact Hopen|exact Herr]].
  destruct (Hone 3%nat (conj (le_S _ _ (le_S _ _ (le_n 1))) (le_n 3))) as (_ & _ & Hfl).
  rewrite E in Hfl. exact (Hfl eq_refl).
Defined.

(** Calls of [connect()] that are not made in a row: the close event of an
    earlier transport, delivered between two of them, clears the pending
    outcome of the attempt in flight, and the next call starts a second
    attempt beside it. *)
Lemma close_of_an_earlier_transport_between_calls :
  length <$> (in_flight <$>
    run Sample.quiet
      [Call AConnect; Call ADisconnect; Call AConnect; SocketClose 0; Call AConnect]
      initial)
  = Some 2%nat.
Proof. reflexivity. Qed.

(** C3 on a freshly mounted editor. *)
Lemma remote_update_is_not_echoed_run :
  let r := Editor.handleWebSocketMessage (Editor.content_update "remote text")
             Editor.mounted initial in
  Editor.isRemoteUpdate (Editor.editor r) = true /\
  Editor.content (Editor.editor r) = JS.Str "remote text" /\
  Editor.pending (Editor.editor r) = [{| tm_delay := 100; tm_pending := true |}] /\
  Editor.world r = initial.
Proof.
  destruct (remote_update_is_not_echoed (host := Sample.host)
              (Editor.content_update "remote text") (JS.Str "content_update")
              (JS.Obj [("content", JS.Str "remote text")]) (JS.Str "remote text")
              Editor.mounted initial eq_refl eq_refl eq_refl eq_refl)
    as (_ & Hf & Hc & Hp & Hw & _).
  cbv zeta. split; [exact Hf|]. split; [exact Hc|]. split; [exact Hp|exact Hw].
Defined.

Lemma quiet_never_connects (h : nat) (m : JS.Value) (w : World) :
  Forall no_connect (Sample.quiet h m w).
Proof. constructor. Qed.

(** C1, the part that holds. On the service that has given up, after a
    last [connect()] by client code and [disconnect()], the seven transports
    made so far stay seven through the error and close events of the last
    one. On the connected service [disconnect()] leaves the transport with
    its close event to come: the service is not settled, and a run of open
    events, close events and timer callbacks makes a second transport. *)
Lemma disconnect_stops_exactly_a_settled_service_run :
  (settled (disconnect Sample.last_try) /\
   transports_made <$>
     run Sample.quiet [SocketError 6; SocketClose 6] (disconnect Sample.last_try)
   = Some 7%nat) /\
  (~ settled (disconnect Sample.connected) /\
   exists es w',
     Forall open_close_or_timer es /\
     run Sample.quiet es (disconnect Sample.connected) = Some w' /\
     transports_made w' = 2%nat).
Proof.
  destruct (disconnect_stops_exactly_a_settled_service (host := Sample.host)
              Sample.quiet) as (_ & _ & Hstay & Hgo & _).
  split.
  - assert (Hset : settled (disconnect Sample.last_try)).
    { split.
      - repeat (apply Forall_cons; split; [reflexivity|]). constructor.
      - repeat (apply Forall_cons; split;
                  [first [left; split; reflexivity
                         |right; split; [vm_compute; discriminate
                                        |vm_compute; discriminate]]|]).
        constructor. }
    split; [exact Hset|].
    destruct (run Sample.quiet [SocketError 6; SocketClose 6]
                (disconnect Sample.last_try)) as [w'|] eqn:Hrun;
      [|vm_compute in Hrun; discriminate Hrun].
    destruct (Hstay quiet_never_connects [SocketError 6; SocketClose 6]
                Sample.last_try w' Hset) as [Hmade _].
    + repeat constructor; discriminate.
    + exact Hrun.
    + cbn. rewrite Hmade. reflexivity.
  - assert (Hnot : ~ settled (disconnect Sample.connected)).
    { intros [_ Hs]. apply Forall_cons in Hs as [[[Hf _]|[Hc _]] _].
      - discriminate Hf.
      - apply Hc. reflexivity. }
    split; [exact Hnot|].
    apply (Hgo Sample.connected); [|reflexivity|exact Hnot].
    repeat constructor. discriminate.
Defined.


(** C4, the part that holds, on the first [connect()] of the fresh service
    when its transport fails: the promise is rejected and no timer is set by
    the error event. *)
Lemma error_rejects_and_only_close_retries_run :
  exists w',
    step Sample.quiet (SocketError 0) (fst (connect initial)) = Some w' /\
    promise_state 0 w' = Some Rejected /\
    timers w' = [].
Proof.
  destruct (error_rejects_and_only_close_retries (host := Sample.host) Sample.quiet)
    as (H & _ & _).
  eexists. split; [reflexivity|].
  assert (Hsk : sockets (fst (connect initial)) !! 0%nat =
                Some (new_socket "ws://localhost:8080/ws" 0)) by reflexivity.
  destruct (H 0%nat _ 0%nat (fst (connect initial)) _ Hsk eq_refl eq_refl)
    as (Hp & Ht & _).
  split; [exact Hp|exact Ht].
Defined.

(** C8, the part that holds, on a text that is not JSON. *)
Lemma unparsable_data_is_dropped_and_logged_run :
  onmessage Sample.quiet "not json" (onMessage 0 initial) =
    {| pass_world :=
         say LError "Error parsing WebSocket message:" (onMessage 0 initial);
       pass_invoked := []; pass_threw := false |}.
Proof.
  destruct (unparsable_data_is_dropped_and_logged (host := Sample.host) Sample.quiet)
    as (H & _).
  exact (H "not json" (onMessage 0 initial) eq_refl).
Defined.

End Runs.

(** * The further statements on concrete runs *)

Section MoreRuns.

Local Existing Instance Sample.host.

(** X1 on the connected service, three calls. *)
Lemma connect_on_an_open_connection_only_logs_run :
  isConnected Sample.connected = true /\
  exists w', connect_n 3 Sample.connected = (w', [Done; Done; Done]) /\
             sockets w' = sockets Sample.connected.
Proof.
  split; [reflexivity|].
  destruct (connect_on_an_open_connection_only_logs (host := Sample.host) 3
              Sample.connected eq_refl) as (w' & E & Hs & _).
  exists w'. split; [exact E|exact Hs].
Defined.

(** X2 on the fresh service with an [ftp:] URL, and on the service with
    that URL after a [connect()] and a [disconnect()], whose first transport
    has its close event to come. *)
Lemma refused_url_sticks_until_disconnect_run :
  WebSocket_accepts "ftp://localhost:8080/ws" = false /\
  snd (connect (setUrl "ftp://localhost:8080/ws" initial)) = Waits 0 /\
  (exists w', connect_n 2
                (setUrl "ws://localhost:8080/ws"
                   (fst (connect (setUrl "ftp://localhost:8080/ws" initial))))
              = (w', [Waits 0; Waits 0]) /\
              sockets w' = [] /\ promise_state 0 w' = Some Rejected) /\
  (exists v w2,
     step Sample.quiet (SocketClose 0)
       (setUrl "ws://localhost:8080/ws"
          (fst (connect (setUrl "ftp://localhost:8080/ws"
                           (disconnect (fst (connect initial))))))) = Some v /\
     connectionPromise v = None /\
     connect v = (w2, Waits 2) /\
     transports_made w2 = 2%nat /\
     promise_state 2 w2 = Some Pending).
Proof.
  split; [reflexivity|].
  destruct (refused_url_sticks_until_disconnect (host := Sample.host) Sample.quiet
              (setUrl "ftp://localhost:8080/ws" initial) eq_refl eq_refl eq_refl)
    as (Ho & _ & _ & _ & Hstick & _).
  split; [exact Ho|]. split.
  - destruct (Hstick "ws://localhost:8080/ws" 2%nat) as (w' & E & Hs & _ & Hp).
    exists w'. split; [exact E|]. split; [exact Hs|exact Hp].
  - assert (Hnot : isConnected (setUrl "ftp://localhost:8080/ws"
                                  (disconnect (fst (connect initial)))) = false)
      by (vm_compute; reflexivity).
    destruct (refused_url_sticks_until_disconnect (host := Sample.host) Sample.quiet
                (setUrl "ftp://localhost:8080/ws" (disconnect (fst (connect initial))))
                Hnot eq_refl eq_refl)
      as (_ & _ & _ & _ & _ & _ & Hevent & _).
    exact (Hevent 0%nat (moved CLOSING false (new_socket "ws://localhost:8080/ws" 0))
             (SocketClose 0) "ws://localhost:8080/ws" eq_refl eq_refl
             (or_introl eq_refl) eq_refl).
Defined.

(** X3 on the fresh service. *)
Lemma connect_then_open_is_connected_run :
  exists w',
    run Sample.quiet [Call AConnect; SocketOpen 0] initial = Some w' /\
    isConnected w' = true /\ reconnectAttempts w' = 0 /\
    promise_state 0 w' = Some Fulfilled.
Proof.
  destruct (connect_then_open_is_connected (host := Sample.host) Sample.quiet initial
              eq_refl eq_refl eq_refl)
    as (w' & E & Hc & _ & _ & Ha & _ & Hp & _).
  exists w'. split; [exact E|]. split; [exact Hc|]. split; [exact Ha|exact Hp].
Defined.

(** X4 on the connected service, two messages. *)
Lemma sends_are_handed_over_in_order_run :
  sk_sent <$> sockets (send_all [JS.Str "a"; JS.Str "b"] Sample.connected) !! 0%nat
  = Some [JSON_stringify (JS.Str "a"); JSON_stringify (JS.Str "b")].
Proof.
  rewrite (sends_are_handed_over_in_order (host := Sample.host)
             [JS.Str "a"; JS.Str "b"] Sample.connected 0%nat
             (moved OPEN false (new_socket "ws://localhost:8080/ws" 0))
             eq_refl eq_refl eq_refl).
  reflexivity.
Defined.

(** X6 with three handlers registered, the second of which throws. *)
Lemma a_throwing_handler_starves_the_later_ones_run :
  called (onmessage Sample.thrower "{}"
            (onMessage 2 (onMessage 1 (onMessage 0 initial))))
  = [0; 1]%nat.
Proof.
  assert (Hpre : forall g (v : World), g ∈ [0%nat] ->
                   AThrow ∉ Sample.thrower g (JS.Obj []) v).
  { intros g v Hg. apply list_elem_of_singleton in Hg. subst g. cbn.
    apply not_elem_of_nil. }
  assert (Hh : forall v : World, AThrow ∈ Sample.thrower 1 (JS.Obj []) v).
  { intros v. cbn. apply list_elem_of_singleton. reflexivity. }
  exact (proj1 (a_throwing_handler_starves_the_later_ones (host := Sample.host)
                  Sample.thrower [0%nat] [2%nat] 1%nat (JS.Obj []) "{}"
                  (onMessage 2 (onMessage 1 (onMessage 0 initial)))
                  eq_refl Hpre Hh eq_refl)).
Defined.

Lemma initial_is_bounded : bounded initial.
Proof. split; [cbn; unfold maxReconnectAttempts; lia|constructor]. Qed.

(** X7 on the run in which every attempt fails. *)
Lemma counter_and_delays_stay_bounded_run :
  exists w',
    run Sample.quiet Sample.giving_up initial = Some w' /\
    0 <= reconnectAttempts w' <= 5 /\
    Forall (fun tm => 1000 <= tm_delay tm <= 5000) (timers w').
Proof.
  destruct (run Sample.quiet Sample.giving_up initial) as [w'|] eqn:Hrun;
    [|vm_compute in Hrun; discriminate Hrun].
  exists w'. split; [reflexivity|].
  exact (counter_and_delays_stay_bounded (host := Sample.host) Sample.quiet
           Sample.giving_up initial w' initial_is_bounded Hrun).
Defined.

(** X8: the close event of the first transport, with the second one open
    and current. *)
Lemma any_close_or_error_forgets_the_current_transport_run :
  isConnected Sample.second_open = true /\
  exists w',
    step Sample.quiet (SocketClose 0) Sample.second_open = Some w' /\
    isConnected w' = false /\
    readyState_of 1 w' = Some OPEN.
Proof.
  split; [reflexivity|].
  destruct (step Sample.quiet (SocketClose 0) Sample.second_open) as [w'|] eqn:Hstep;
    [|vm_compute in Hstep; discriminate Hstep].
  exists w'. split; [reflexivity|].
  destruct (any_close_or_error_forgets_the_current_transport (host := Sample.host)
              Sample.quiet 0%nat Sample.second_open w' (or_introl Hstep))
    as (_ & _ & Hnot & Hother & _).
  split; [exact Hnot|].
  unfold readyState_of. rewrite (Hother 1%nat); [reflexivity|discriminate].
Defined.

(** X17: the connected service loses its transport. *)
Lemma a_drop_is_recovered_by_its_timer_run :
  exists w',
    run Sample.quiet [SocketClose 0; TimerFires 0; SocketOpen 1] Sample.connected
      = Some w' /\
    isConnected w' = true /\ socket w' = Some 1%nat /\ reconnectAttempts w' = 0.
Proof.
  destruct (a_drop_is_recovered_by_its_timer (host := Sample.host) Sample.quiet 0%nat
              (moved OPEN false (new_socket "ws://localhost:8080/ws" 0))
              Sample.connected eq_refl eq_refl eq_refl eq_refl)
    as (w' & E & Hc & Hso & _ & Ha & _).
  exists w'. split; [exact E|]. split; [exact Hc|]. split; [exact Hso|exact Ha].
Defined.

Lemma quiet_leaves_the_registry (h : nat) (m : JS.Value) (w : World) :
  Forall (fun a => ~ registry_call a) (Sample.quiet h m w).
Proof. constructor. Qed.

(** X18: two listeners, through a connect, a drop and the reconnection. *)
Lemma listeners_survive_reconnection_run :
  messageHandlers <$>
    run Sample.quiet
      [Call AConnect; SocketOpen 0; SocketMessage 0 "{}"; SocketClose 0;
       TimerFires 0; SocketOpen 1]
      (onMessage 1 (onMessage 0 initial))
  = Some [0; 1]%nat.
Proof.
  destruct (run Sample.quiet
              [Call AConnect; SocketOpen 0; SocketMessage 0 "{}"; SocketClose 0;
               TimerFires 0; SocketOpen 1]
              (onMessage 1 (onMessage 0 initial))) as [w'|] eqn:Hrun;
    [|vm_compute in Hrun; discriminate Hrun].
  cbn. f_equal.
  refine (listeners_survive_reconnection (host := Sample.host) Sample.quiet _
            (onMessage 1 (onMessage 0 initial)) w'
            quiet_leaves_the_registry _ Hrun).
  repeat constructor; intros a [= <-]; exact (fun H => H).
Defined.

(** X12 on a mounted editor and the connected service. *)
Lemma a_local_edit_goes_out_once_when_open_run :
  sk_sent <$>
    sockets (Editor.world (Editor.handleContentChange "hello" Editor.mounted
                             Sample.connected)) !! 0%nat
  = Some [JSON_stringify (Editor.content_update "hello")].
Proof.
  destruct (a_local_edit_goes_out_once_when_open (host := Sample.host) "hello"
              Editor.mounted Sample.connected eq_refl) as (_ & _ & Hopen & _).
  rewrite (Hopen 0%nat (moved OPEN false (new_socket "ws://localhost:8080/ws" 0))
             eq_refl eq_refl eq_refl).
  reflexivity.
Defined.

(** X15: three editors mount on the fresh service. *)
Lemma editors_mounting_together_share_one_transport_run :
  exists w',
    Mount.effects [0; 1; 2]%nat initial =
      (w', [Mount.Awaiting (Waits 0); Mount.Awaiting (Waits 0);
            Mount.Awaiting (Waits 0)]) /\
    sockets w' = [new_socket "ws://localhost:8080/ws" 0] /\
    messageHandlers w' = [0; 1; 2]%nat.
Proof.
  destruct (editors_mounting_together_share_one_transport (host := Sample.host)
              Sample.quiet 0%nat [1; 2]%nat initial eq_refl eq_refl eq_refl)
    as (w' & E & Hs & Hh & _).
  exists w'. split; [exact E|]. split; [exact Hs|exact Hh].
Defined.

(** X16: two editors mount on the connected service. *)
Lemma mounting_on_an_open_connection_reuses_it_run :
  exists w',
    Mount.effects [0; 1]%nat Sample.connected = (w', [Mount.Reused; Mount.Reused]) /\
    sockets w' = sockets Sample.connected /\
    messageHandlers w' = [0; 1]%nat.
Proof.
  destruct (mounting_on_an_open_connection_reuses_it (host := Sample.host)
              [0; 1]%nat Sample.connected eq_refl)
    as (w' & E & Hs & _ & _ & Hh).
  exists w'. split; [exact E|]. split; [exact Hs|exact Hh].
Defined.

(** X20 on the connected service with two listeners. *)
Lemma connect_after_disconnect_starts_afresh_run :
  exists w',
    connect (disconnect (onMessage 1 (onMessage 0 Sample.connected))) = (w', Waits 1) /\
    transports_made w' = 2%nat /\ messageHandlers w' = [].
Proof.
  destruct (connect_after_disconnect_starts_afresh (host := Sample.host)
              (onMessage 1 (onMessage 0 Sample.connected)) eq_refl)
    as (w' & E & Hm & _ & _ & Hh).
  exists w'. split; [exact E|]. split; [exact Hm|exact Hh].
Defined.

(** X19 on the fresh service. *)
Lemma disconnect_leaves_the_outcome_pending_run :
  exists w',
    run Sample.quiet [Call AConnect; Call ADisconnect] initial = Some w' /\
    promise_state 0 w' = Some Pending /\
    (exists w2, step Sample.quiet (SocketClose 0) w' = Some w2 /\
                promise_state 0 w2 = Some Pending).
Proof.
  destruct (disconnect_leaves_the_outcome_pending (host := Sample.host) Sample.quiet
              initial eq_refl eq_refl eq_refl)
    as (w' & E & Hp & _ & _ & _ & _ & (w2 & E2 & Hp2 & _)).
  exists w'. split; [exact E|]. split; [exact Hp|].
  exists w2. split; [exact E2|exact Hp2].
Defined.

End MoreRuns.
